(** * RmanDiscoveryPlugin: discovery of RenderMan shader nodes

    A shallow embedding of
    [third_party/renderman-24/plugin/rmanDiscovery/rmanDiscovery.cpp]
    and the properties of its alias post-processing pass, of its filter
    and of its process-wide defaults.

    - [std::map<NdrIdentifier, NdrTokenVec>] is a [gmap string (list string)];
    - [NdrNodeDiscoveryResultVec] is a [list NdrNodeDiscoveryResult];
    - the lambda handed to [std::remove_if] mutates the alias map it captures
      and calls the user's filter, which has effects of its own: both are
      threaded explicitly as state;
    - the function-local statics behind the default search paths and the
      default symlink policy are fields of a process state. *)

From Stdlib Require Import String List Bool Arith Lia.
From stdpp Require Import base tactics option list strings gmap.

Local Open Scope string_scope.
Local Open Scope list_scope.

(** ** Strings of the Tf library *)

Module Tf.

(** Modelled from the spec: [TfStringEndsWith] (pxr/base/tf/stringUtils) is
    not among the sources; the spec speaks of a uri that "carries the
    reserved aliases extension", that is, a uri that ends in it. *)
Fixpoint TfStringEndsWith (s suffix : string) : bool :=
  String.eqb s suffix ||
  match s with
  | EmptyString => false
  | String _ s' => TfStringEndsWith s' suffix
  end.

(** [std::string::empty] *)
Definition empty (s : string) : bool :=
  match s with EmptyString => true | String _ _ => false end.

End Tf.

(** ** Data model *)

Abbreviation NdrIdentifier := string (only parsing).
Abbreviation NdrTokenVec := (list string) (only parsing).
Abbreviation NdrStringVec := (list string) (only parsing).

(** Modelled from the spec: the struct [NdrNodeDiscoveryResult] is declared in
    pxr/usd/ndr, outside the sources; these are the fields the spec lists,
    under the names the plugin uses ([dr.uri], [dr.identifier],
    [dr.aliases]). *)
Record NdrNodeDiscoveryResult : Type := mkDiscoveryResult {
  identifier : NdrIdentifier;
  version : string;
  family : string;
  sourceType : string;
  uri : string;
  aliases : NdrTokenVec
}.

Abbreviation NdrNodeDiscoveryResultVec := (list NdrNodeDiscoveryResult) (only parsing).

(** [dr.aliases = v] *)
Definition set_aliases (v : NdrTokenVec) (dr : NdrNodeDiscoveryResult)
  : NdrNodeDiscoveryResult :=
  {| identifier := identifier dr; version := version dr; family := family dr;
     sourceType := sourceType dr; uri := uri dr; aliases := v |}.

(** [TF_DEFINE_PRIVATE_TOKENS(_allowedExtensionTokens, (args)(oso)(sdraliases))] *)
Module _allowedExtensionTokens.
Definition args : string := "args".
Definition oso : string := "oso".
(** The sdraliases extension is only used for the aliases files. *)
Definition sdraliases : string := "sdraliases".
Definition allTokens : list string := [args; oso; sdraliases].
End _allowedExtensionTokens.

(** [TfToStringVector]: tokens are modelled by their strings. *)
Definition TfToStringVector (tokens : list string) : NdrStringVec := tokens.

(** [RmanDiscoveryPlugin::Filter], a [std::function] whose type is declared
    in rmanDiscovery.h, outside the sources. The lambda of [DiscoverNodes]
    takes its result by non-const reference ([NdrNodeDiscoveryResult &dr],
    where [_GetAliasesFromAliasesDiscoveryResult] takes a const one) and
    hands that reference to the filter; its comment speaks of "any side
    effects of the filter function itself". So a filter answers, may rewrite
    the result it is given, and may have effects of its own, on a state of
    type [FS]. *)
Definition Filter (FS : Type) : Type :=
  NdrNodeDiscoveryResult -> FS -> (bool * NdrNodeDiscoveryResult) * FS.

(** The members of [RmanDiscoveryPlugin]; an empty [std::function] is [None]. *)
Record RmanDiscoveryPlugin (FS : Type) : Type := mkPlugin {
  _searchPaths : NdrStringVec;
  _allowedExtensions : NdrStringVec;
  _followSymlinks : bool;
  _filter : option (Filter FS)
}.
Arguments mkPlugin {FS} _ _ _ _.
Arguments _searchPaths {FS} _.
Arguments _allowedExtensions {FS} _.
Arguments _followSymlinks {FS} _.
Arguments _filter {FS} _.

(** What [computeDefaultSearchPaths] reads: the environment variables
    ([TfGetenv] gives the empty string for an unset one) and the path of the
    hdPrmanLoader plugin when the plugin registry knows it. *)
Record Environment : Type := mkEnvironment {
  TfGetenv : string -> string;
  hdPrmanLoader : option string
}.

(** The function-local statics. [defaultSearchPaths] is [None] until the
    first call of [RmanDiscoveryPlugin_GetDefaultSearchPaths]. *)
Record Statics : Type := mkStatics {
  defaultSearchPaths : option NdrStringVec;
  defaultFollowSymlinks : bool
}.

(** A process: its environment, its statics, the plugins constructed so far,
    the state the filters act on, and (ghost) how many times
    [computeDefaultSearchPaths] has run. *)
Record Process (FS : Type) : Type := mkProcess {
  environment : Environment;
  statics : Statics;
  plugins : list (RmanDiscoveryPlugin FS);
  filterState : FS;
  computations : nat
}.
Arguments mkProcess {FS} _ _ _ _ _.
Arguments environment {FS} _.
Arguments statics {FS} _.
Arguments plugins {FS} _.
Arguments filterState {FS} _.
Arguments computations {FS} _.

(** The calls a host makes, and a change of the environment behind the
    process (the plugin reads it, it never writes it). Plugins are named by
    the order of their construction. *)
Inductive Op (Context_ FS : Type) : Type :=
| OpSetDefaultSearchPaths (paths : NdrStringVec)
| OpSetDefaultFollowSymlinks (followSymlinks : bool)
| OpNew
| OpNewFilter (filter : Filter FS)
| OpDiscoverNodes (i : nat) (context : Context_)
| OpGetSearchURIs (i : nat)
| OpEnviron (env : Environment).
Arguments OpSetDefaultSearchPaths {Context_ FS} _.
Arguments OpSetDefaultFollowSymlinks {Context_ FS} _.
Arguments OpNew {Context_ FS}.
Arguments OpNewFilter {Context_ FS} _.
Arguments OpDiscoverNodes {Context_ FS} _ _.
Arguments OpGetSearchURIs {Context_ FS} _.
Arguments OpEnviron {Context_ FS} _.

(** The plugin with its filter replaced: what [_filter = std::move(filter)]
    does to a plugin, and the plugin a test builds to compare two filters. *)
Definition setFilter {FS FS' : Type} (filter : option (Filter FS'))
    (self : RmanDiscoveryPlugin FS) : RmanDiscoveryPlugin FS' :=
  mkPlugin (_searchPaths self) (_allowedExtensions self) (_followSymlinks self)
           filter.

(** A filter that behaves as [filter] and, as an effect of its own, appends
    each result it is called on to a log. *)
Definition recording {FS : Type} (filter : Filter FS)
  : Filter (FS * list NdrNodeDiscoveryResult) :=
  fun dr st =>
    let '(answer, fs) := filter dr (fst st) in
    (answer, (fs, snd st ++ [dr])).

(** ** A small installation, to run the code on *)

Module Installation.

(** A directory with two nodes and, after them in the order of the walk, an
    aliases file. *)
Definition plastic : NdrNodeDiscoveryResult :=
  mkDiscoveryResult "plastic" "" "" "args" "/shaders/plastic.args" [].
Definition glass : NdrNodeDiscoveryResult :=
  mkDiscoveryResult "glass" "" "" "oso" "/shaders/glass.oso" [].
Definition shaderAliases : NdrNodeDiscoveryResult :=
  mkDiscoveryResult "shaders" "" "" "sdraliases" "/shaders/shaders.sdraliases" [].

Definition walk (searchPaths allowedExtensions : list string)
    (followSymlinks : bool) (context : unit) : list NdrNodeDiscoveryResult :=
  [plastic; glass; shaderAliases].

(** A walk that finds the two nodes and no aliases file. *)
Definition walkNodes (searchPaths allowedExtensions : list string)
    (followSymlinks : bool) (context : unit) : list NdrNodeDiscoveryResult :=
  [plastic; glass].

(** The aliases file declares plastic -> [old_plastic, legacy_plastic]. *)
Definition parse (dr : NdrNodeDiscoveryResult) (aliasMap : gmap string (list string))
  : gmap string (list string) :=
  <["plastic" := ["old_plastic"; "legacy_plastic"]]> aliasMap.

Definition plugin : RmanDiscoveryPlugin nat :=
  mkPlugin ["/shaders"] ["args"; "oso"; "sdraliases"] true None.

(** A filter that includes everything and touches nothing. *)
Definition includeAll : Filter nat := fun dr fs => ((true, dr), fs).

(** A filter that keeps the .args nodes and counts its calls. *)
Definition argsOnly : Filter nat :=
  fun dr fs => ((String.eqb (sourceType dr) "args", dr), S fs).

(** A filter that includes everything and tags what it includes. *)
Definition tagging : Filter nat :=
  fun dr fs => ((true, set_aliases ["tagged"] dr), fs).

(** A filter that includes everything and moves what it includes. *)
Definition moving : Filter nat :=
  fun dr fs =>
    ((true,
      mkDiscoveryResult (identifier dr) (version dr) (family dr) (sourceType dr)
                        "/moved/table.sdraliases" (aliases dr)), fs).

(** As [includeAll] on the nodes; it would discard an aliases file, and
    count it, were it ever called on one. *)
Definition noAliasesFiles : Filter nat :=
  fun dr fs =>
    if Tf.TfStringEndsWith (uri dr) ".sdraliases"
    then ((false, dr), S fs)
    else ((true, dr), fs).

(** An environment with RMANTREE only, and one with nothing set. *)
Definition rmantree : Environment :=
  mkEnvironment (fun name => if String.eqb name "RMANTREE" then "/opt/rman" else "")
                None.
Definition bare : Environment := mkEnvironment (fun _ => "") None.

(** Stand-ins for the path helpers. *)
Definition split (s sep : string) : list string := [s].
Definition catPaths (a b : string) : string := (a ++ "/" ++ b)%string.
Definition pathName (s : string) : string := s.

(** A filter that discards everything, and tags it first. *)
Definition discardAll : Filter nat :=
  fun dr fs => ((false, set_aliases ["discarded"] dr), S fs).

(** A walk that finds the aliases file and no node. *)
Definition walkAliases (searchPaths allowedExtensions : list string)
    (followSymlinks : bool) (context : unit) : list NdrNodeDiscoveryResult :=
  [shaderAliases].

(** An aliases file that cannot be read contributes nothing. *)
Definition parseNothing (dr : NdrNodeDiscoveryResult)
    (aliasMap : gmap string (list string)) : gmap string (list string) :=
  aliasMap.

(** The node "plastic" once more, as compiled OSL, and a walk that finds
    both. *)
Definition plasticOso : NdrNodeDiscoveryResult :=
  mkDiscoveryResult "plastic" "" "" "oso" "/shaders/plastic.oso" [].
Definition walkPlastics (searchPaths allowedExtensions : list string)
    (followSymlinks : bool) (context : unit) : list NdrNodeDiscoveryResult :=
  [plastic; shaderAliases; plasticOso].

(** An environment with both path variables set. *)
Definition sitePaths : Environment :=
  mkEnvironment
    (fun name =>
       if String.eqb name "RMAN_SHADERPATH" then "/site/osl"
       else if String.eqb name "RMAN_RIXPLUGINPATH" then "/site/plugins"
       else if String.eqb name "RMANTREE" then "/opt/rman"
       else "")
    (Some "/usr/lib/hdPrmanLoader.so").

(** The same two variables, and nothing else. *)
Definition sitePathsOnly : Environment :=
  mkEnvironment
    (fun name =>
       if String.eqb name "RMAN_SHADERPATH" then "/site/osl"
       else if String.eqb name "RMAN_RIXPLUGINPATH" then "/site/plugins"
       else "")
    None.

(** Two walks over the same files: the aliases file last, or first. *)
Definition walkEither (searchPaths allowedExtensions : list string)
    (followSymlinks : bool) (aliasesFirst : bool) : list NdrNodeDiscoveryResult :=
  if aliasesFirst then [shaderAliases; plastic; glass]
  else [plastic; glass; shaderAliases].

(** A filter that includes the first result it is ever called on, and no
    other: its answer depends on what its earlier calls have left. *)
Definition firstOnly : Filter nat :=
  fun dr fs => ((Nat.eqb fs 0, dr), S fs).

(** What a host does in a session with no setter call. *)
Definition quietSession : list (Op unit nat) :=
  [OpEnviron bare; OpNew; OpDiscoverNodes 0 tt; OpSetDefaultFollowSymlinks false].

(** What a host does in a session with the process. *)
Definition session : list (Op unit nat) :=
  [OpNew; OpSetDefaultSearchPaths ["/site/shaders"]; OpEnviron bare;
   OpSetDefaultFollowSymlinks false; OpNewFilter includeAll;
   OpDiscoverNodes 0 tt; OpGetSearchURIs 1].

End Installation.

(** ** The code *)

Section Discovery.

(** The discovery context and the state the filters act on. *)
Variable Context_ : Type.
Variable FS : Type.

(** [NdrFsHelpersDiscoverNodes(searchPaths, allowedExtensions,
    followSymlinks, &context)] of pxr/usd/ndr/filesystemDiscoveryHelpers:
    the walk over the file system, for a fixed file system. *)
Variable NdrFsHelpersDiscoverNodes :
  NdrStringVec -> NdrStringVec -> bool -> Context_ -> NdrNodeDiscoveryResultVec.

(** [RmanArgsParserPlugin::ParseShaderAliases(dr, aliasMap)]: reads the
    aliases file of [dr] and adds its entries to the map. *)
Variable ParseShaderAliases :
  NdrNodeDiscoveryResult -> gmap string (list string) -> gmap string (list string).

(** Path and string helpers of pxr/base/tf and pxr/base/arch. *)
Variable ARCH_PATH_LIST_SEP : string.
Variable TfStringSplit : string -> string -> list string.
Variable TfStringCatPaths : string -> string -> string.
Variable TfGetPathName : string -> string.

Definition computeDefaultSearchPaths (env : Environment) : NdrStringVec :=
  let searchPaths := [] in
  (* RMAN_SHADERPATH contains OSL (.oso) *)
  let shaderpath := TfGetenv env "RMAN_SHADERPATH" in
  let searchPaths :=
    if negb (Tf.empty shaderpath) then
      searchPaths ++ TfStringSplit shaderpath ARCH_PATH_LIST_SEP
    else
      (* Default RenderMan installation under '$RMANTREE/lib/shaders' *)
      let rmantree := TfGetenv env "RMANTREE" in
      let searchPaths :=
        if negb (Tf.empty rmantree)
        then searchPaths ++ [TfStringCatPaths rmantree "lib/shaders"]
        else searchPaths in
      (* Default hdPrman installation under 'plugins/usd/resources/shaders' *)
      match hdPrmanLoader env with
      | Some pluginPath =>
          let path := TfGetPathName pluginPath in
          if negb (Tf.empty path)
          then searchPaths ++ [TfStringCatPaths path "resources/shaders"]
          else searchPaths
      | None => searchPaths
      end in
  (* RMAN_RIXPLUGINPATH contains Args (.args) metadata *)
  let rixpluginpath := TfGetenv env "RMAN_RIXPLUGINPATH" in
  if negb (Tf.empty rixpluginpath) then
    (* Assume that args files are under an 'Args' directory *)
    searchPaths ++
      map (fun path => TfStringCatPaths path "Args")
          (TfStringSplit rixpluginpath ARCH_PATH_LIST_SEP)
  else
    (* Default RenderMan installation under '$RMANTREE/lib/plugins/Args' *)
    let rmantree := TfGetenv env "RMANTREE" in
    if negb (Tf.empty rmantree)
    then searchPaths ++ [TfStringCatPaths rmantree "lib/plugins/Args"]
    else searchPaths.

(** [static NdrStringVec defaultSearchPaths = computeDefaultSearchPaths();]
    runs its initialiser the first time control passes through it. *)
Definition RmanDiscoveryPlugin_GetDefaultSearchPaths (P : Process FS)
  : NdrStringVec * Process FS :=
  match defaultSearchPaths (statics P) with
  | Some paths => (paths, P)
  | None =>
      let paths := computeDefaultSearchPaths (environment P) in
      (paths,
       mkProcess (environment P)
                 (mkStatics (Some paths) (defaultFollowSymlinks (statics P)))
                 (plugins P) (filterState P) (S (computations P)))
  end.

Definition RmanDiscoveryPlugin_SetDefaultSearchPaths
    (paths : NdrStringVec) (P : Process FS) : Process FS :=
  let '(_, P1) := RmanDiscoveryPlugin_GetDefaultSearchPaths P in
  mkProcess (environment P1)
            (mkStatics (Some paths) (defaultFollowSymlinks (statics P1)))
            (plugins P1) (filterState P1) (computations P1).

(** [static bool defaultFollowSymlinks = true;] *)
Definition RmanDiscoveryPlugin_GetDefaultFollowSymlinks (P : Process FS)
  : bool * Process FS :=
  (defaultFollowSymlinks (statics P), P).

Definition RmanDiscoveryPlugin_SetDefaultFollowSymlinks
    (followSymlinks : bool) (P : Process FS) : Process FS :=
  let '(_, P1) := RmanDiscoveryPlugin_GetDefaultFollowSymlinks P in
  mkProcess (environment P1)
            (mkStatics (defaultSearchPaths (statics P1)) followSymlinks)
            (plugins P1) (filterState P1) (computations P1).

(** [RmanDiscoveryPlugin::RmanDiscoveryPlugin()] *)
Definition RmanDiscoveryPlugin_new (P : Process FS)
  : RmanDiscoveryPlugin FS * Process FS :=
  let '(paths, P1) := RmanDiscoveryPlugin_GetDefaultSearchPaths P in
  let exts := TfToStringVector _allowedExtensionTokens.allTokens in
  let '(follow, P2) := RmanDiscoveryPlugin_GetDefaultFollowSymlinks P1 in
  (mkPlugin paths exts follow None, P2).

(** [RmanDiscoveryPlugin::RmanDiscoveryPlugin(Filter filter)
       : RmanDiscoveryPlugin() { _filter = std::move(filter); }] *)
Definition RmanDiscoveryPlugin_new_filter (filter : Filter FS) (P : Process FS)
  : RmanDiscoveryPlugin FS * Process FS :=
  let '(self, P1) := RmanDiscoveryPlugin_new P in
  (setFilter (Some filter) self, P1).

(** [static const std::string aliasExtension =
       std::string(".") + _allowedExtensionTokens->sdraliases.GetString();] *)
Definition aliasExtension : string := "." ++ _allowedExtensionTokens.sdraliases.

(** Returns true if the discovery result is an aliases file, after parsing
    it into the alias map. *)
Definition _GetAliasesFromAliasesDiscoveryResult
    (dr : NdrNodeDiscoveryResult) (aliasMap : gmap string (list string))
  : bool * gmap string (list string) :=
  if Tf.TfStringEndsWith (uri dr) aliasExtension
  then (true, ParseShaderAliases dr aliasMap)
  else (false, aliasMap).

(** The lambda [filterPredicate] of [DiscoverNodes]. It captures the alias
    map and [this] by reference; its state is the alias map and the state of
    the filter. It answers whether [dr] is to be removed, and gives [dr] as
    it stands after the call. *)
Definition filterPredicate (self : RmanDiscoveryPlugin FS)
    (dr : NdrNodeDiscoveryResult) (st : gmap string (list string) * FS)
  : (bool * NdrNodeDiscoveryResult) * (gmap string (list string) * FS) :=
  let '(aliasMap, fs) := st in
  let '(isAliases, aliasMap) := _GetAliasesFromAliasesDiscoveryResult dr aliasMap in
  if isAliases then ((true, dr), (aliasMap, fs))
  else
    match _filter self with
    | Some filter =>
        let '((keep, dr), fs) := filter dr fs in
        ((negb keep, dr), (aliasMap, fs))
    | None => ((false, dr), (aliasMap, fs))
    end.

(** [result.erase(std::remove_if(result.begin(), result.end(), pred),
    result.end())]: the predicate is applied to every element once, in
    order; the elements it rejects stay, in order, as the predicate left
    them. *)
Fixpoint remove_if {St : Type}
    (pred : NdrNodeDiscoveryResult -> St -> (bool * NdrNodeDiscoveryResult) * St)
    (result : NdrNodeDiscoveryResultVec) (st : St)
  : NdrNodeDiscoveryResultVec * St :=
  match result with
  | [] => ([], st)
  | dr :: rest =>
      let '((remove, dr), st) := pred dr st in
      let '(kept, st) := remove_if pred rest st in
      (if remove then kept else dr :: kept, st)
  end.

(** The loop body of the back-fill:
    [it = aliasMap.find(dr.identifier); if (it != aliasMap.end()) dr.aliases = it->second;] *)
Definition addAliases (aliasMap : gmap string (list string))
    (dr : NdrNodeDiscoveryResult) : NdrNodeDiscoveryResult :=
  match aliasMap !! identifier dr with
  | Some v => set_aliases v dr
  | None => dr
  end.

(** [if (!aliasMap.empty()) for (NdrNodeDiscoveryResult &dr : result) ...] *)
Definition backfill (aliasMap : gmap string (list string))
    (result : NdrNodeDiscoveryResultVec) : NdrNodeDiscoveryResultVec :=
  if decide (aliasMap = ∅) then result else map (addAliases aliasMap) result.

(** [RmanDiscoveryPlugin::DiscoverNodes(const Context&)]. A non-const member
    function: it gives back the results, the plugin as the call leaves it,
    and the state of the filter. *)
Definition DiscoverNodes (self : RmanDiscoveryPlugin FS) (context : Context_)
    (fs : FS) : NdrNodeDiscoveryResultVec * RmanDiscoveryPlugin FS * FS :=
  let result :=
    NdrFsHelpersDiscoverNodes
      (_searchPaths self) (_allowedExtensions self) (_followSymlinks self)
      context in
  let aliasMap : gmap string (list string) := ∅ in
  (* Filter results and populate aliases. *)
  let '(result, (aliasMap, fs)) :=
    remove_if (filterPredicate self) result (aliasMap, fs) in
  (* If we found aliases, go back and add them to the appropriate results. *)
  let result := backfill aliasMap result in
  (result, self, fs).

(** [RmanDiscoveryPlugin::GetSearchURIs() const] *)
Definition GetSearchURIs (self : RmanDiscoveryPlugin FS) : NdrStringVec :=
  _searchPaths self.


(** ** A process and what a host does to it *)

Definition exec (op : Op Context_ FS) (P : Process FS) : Process FS :=
  match op with
  | OpSetDefaultSearchPaths paths =>
      RmanDiscoveryPlugin_SetDefaultSearchPaths paths P
  | OpSetDefaultFollowSymlinks followSymlinks =>
      RmanDiscoveryPlugin_SetDefaultFollowSymlinks followSymlinks P
  | OpNew =>
      let '(self, P1) := RmanDiscoveryPlugin_new P in
      mkProcess (environment P1) (statics P1) (plugins P1 ++ [self])
                (filterState P1) (computations P1)
  | OpNewFilter filter =>
      let '(self, P1) := RmanDiscoveryPlugin_new_filter filter P in
      mkProcess (environment P1) (statics P1) (plugins P1 ++ [self])
                (filterState P1) (computations P1)
  | OpDiscoverNodes i context =>
      match plugins P !! i with
      | Some self =>
          let '(_, self, fs) := DiscoverNodes self context (filterState P) in
          mkProcess (environment P) (statics P) (<[i := self]> (plugins P))
                    fs (computations P)
      | None => P
      end
  | OpGetSearchURIs _ => P
  | OpEnviron env =>
      mkProcess env (statics P) (plugins P) (filterState P) (computations P)
  end.

Definition run (ops : list (Op Context_ FS)) (P : Process FS) : Process FS :=
  fold_left (fun P op => exec op P) ops P.

(** The process before any call: no static initialised but
    [defaultFollowSymlinks], a constant; no plugin. *)
Definition startup (env : Environment) (fs : FS) : Process FS :=
  mkProcess env (mkStatics None true) [] fs 0.

(** The argument of the last [RmanDiscoveryPlugin_SetDefaultSearchPaths]. *)
Definition lastSearchPaths (ops : list (Op Context_ FS)) : option NdrStringVec :=
  fold_left (fun o op =>
               match op with OpSetDefaultSearchPaths paths => Some paths | _ => o end)
            ops None.

(** The argument of the last [RmanDiscoveryPlugin_SetDefaultFollowSymlinks]. *)
Definition lastFollowSymlinks (ops : list (Op Context_ FS)) : option bool :=
  fold_left (fun o op =>
               match op with OpSetDefaultFollowSymlinks b => Some b | _ => o end)
            ops None.

(** [n] calls of [DiscoverNodes] in a row on one plugin. *)
Fixpoint discoveries (contexts : list Context_) (self : RmanDiscoveryPlugin FS)
    (fs : FS) : list NdrNodeDiscoveryResultVec * RmanDiscoveryPlugin FS * FS :=
  match contexts with
  | [] => ([], self, fs)
  | context :: rest =>
      let '(result, self, fs) := DiscoverNodes self context fs in
      let '(results, self, fs) := discoveries rest self fs in
      (result :: results, self, fs)
  end.

(** ** The two passes, as the spec words them *)

(** A result "whose uri carries the reserved aliases extension". *)
Definition isAliasesFile (dr : NdrNodeDiscoveryResult) : bool :=
  Tf.TfStringEndsWith (uri dr) aliasExtension.

(** The results that are alias definitions. *)
Definition aliasesFiles (results : NdrNodeDiscoveryResultVec)
  : NdrNodeDiscoveryResultVec :=
  List.filter isAliasesFile results.

(** "All alias files [...] parsed and merged into one map": the parser runs
    on every aliases file, in order, each run adding to the map the runs
    before it left. *)
Definition mergedAliasMap (results : NdrNodeDiscoveryResultVec)
    (aliasMap : gmap string (list string)) : gmap string (list string) :=
  fold_left (fun m dr => ParseShaderAliases dr m) (aliasesFiles results) aliasMap.

(** The results that are nodes, not alias definitions. *)
Definition nodeResults (results : NdrNodeDiscoveryResultVec)
  : NdrNodeDiscoveryResultVec :=
  List.filter (fun dr => negb (isAliasesFile dr)) results.

(** The calls of a filter over a sequence of results: each result it is
    given, with its answer and the result as it leaves it. *)
Fixpoint filterCalls (filter : Filter FS) (results : NdrNodeDiscoveryResultVec)
    (fs : FS) : list (NdrNodeDiscoveryResult * (bool * NdrNodeDiscoveryResult)) * FS :=
  match results with
  | [] => ([], fs)
  | dr :: rest =>
      let '(answer, fs) := filter dr fs in
      let '(calls, fs) := filterCalls filter rest fs in
      ((dr, answer) :: calls, fs)
  end.

(** "Returning false from the predicate means discard". *)
Definition keptOf (calls : list (NdrNodeDiscoveryResult * (bool * NdrNodeDiscoveryResult)))
  : NdrNodeDiscoveryResultVec :=
  map (fun c => snd (snd c)) (List.filter (fun c => fst (snd c)) calls).

(** The results the first pass leaves, and the state of the filter after it. *)
Definition firstPass (filter : option (Filter FS))
    (results : NdrNodeDiscoveryResultVec) (fs : FS)
  : NdrNodeDiscoveryResultVec * FS :=
  match filter with
  | Some f =>
      let '(calls, fs) := filterCalls f (nodeResults results) fs in
      (keptOf calls, fs)
  | None => (nodeResults results, fs)
  end.

(** A filter that is a predicate: it answers and leaves the result alone. *)
Definition predicateFilter (p : NdrNodeDiscoveryResult -> bool) : Filter FS :=
  fun dr fs => ((p dr, dr), fs).

(** A filter leaves the results it is given as they are. *)
Definition leavesResult (filter : Filter FS) : Prop :=
  forall dr fs, snd (fst (filter dr fs)) = dr.

(** A filter leaves the uri of the results it is given as it is. *)
Definition leavesUri (filter : Filter FS) : Prop :=
  forall dr fs, uri (snd (fst (filter dr fs))) = uri dr.

(** A filter whose answer and rewriting do not depend on its own state. *)
Definition fixedFilter (filter : Filter FS) : Prop :=
  forall dr fs1 fs2, fst (filter dr fs1) = fst (filter dr fs2).

(** [computeDefaultSearchPaths] has run once exactly when the static is
    initialised. *)
Definition computedOnce (P : Process FS) : Prop :=
  computations P =
  match defaultSearchPaths (statics P) with Some _ => 1 | None => 0 end.

(** A result with its aliases put back to the default. *)
Definition forgetAliases (dr : NdrNodeDiscoveryResult) : NdrNodeDiscoveryResult :=
  set_aliases [] dr.

(** ** The first pass and the back-fill, characterised *)

Lemma TfStringEndsWith_app (s suffix : string) :
  Tf.TfStringEndsWith s suffix = true <-> exists p, s = (p ++ suffix)%string.
Proof.
  induction s as [|c s IH]; cbn [Tf.TfStringEndsWith].
  - rewrite orb_false_r, String.eqb_eq. split.
    + intros <-. now exists EmptyString.
    + intros [p Hp]. destruct p; simpl in Hp; [done | discriminate].
  - rewrite orb_true_iff, String.eqb_eq, IH. split.
    + intros [<- | [p ->]]; [now exists EmptyString | now exists (String c p)].
    + intros [[|c' p] Hp]; simpl in Hp; [now left | right].
      injection Hp as -> ->. now exists p.
Qed.

Lemma remove_if_filterPredicate (self : RmanDiscoveryPlugin FS)
    (results : NdrNodeDiscoveryResultVec) (aliasMap : gmap string (list string))
    (fs : FS) :
  remove_if (filterPredicate self) results (aliasMap, fs) =
  (fst (firstPass (_filter self) results fs),
   (mergedAliasMap results aliasMap, snd (firstPass (_filter self) results fs))).
Proof.
  revert aliasMap fs.
  induction results as [|dr rest IH]; intros aliasMap fs.
  - unfold firstPass. simpl. now destruct (_filter self).
  - cbn [remove_if]. unfold filterPredicate at 1.
    unfold _GetAliasesFromAliasesDiscoveryResult.
    fold (isAliasesFile dr).
    unfold firstPass at 1 2, nodeResults, mergedAliasMap, aliasesFiles.
    cbn [List.filter].
    destruct (isAliasesFile dr) eqn:Hdr; cbn [negb fold_left];
      fold (aliasesFiles rest); fold (mergedAliasMap rest);
      fold (nodeResults rest).
    + rewrite IH. reflexivity.
    + destruct (_filter self) as [f|] eqn:Hfilter.
      * cbn [filterCalls].
        destruct (f dr fs) as [[keep dr'] fs1]. rewrite IH.
        unfold firstPass.
        destruct (filterCalls f (nodeResults rest) fs1) as [calls fs2].
        unfold keptOf. cbn [List.filter map fst snd].
        now destruct keep.
      * rewrite IH. reflexivity.
Qed.

Lemma addAliases_empty (dr : NdrNodeDiscoveryResult) : addAliases ∅ dr = dr.
Proof. unfold addAliases. now rewrite lookup_empty. Qed.

Lemma backfill_map (aliasMap : gmap string (list string))
    (result : NdrNodeDiscoveryResultVec) :
  backfill aliasMap result = map (addAliases aliasMap) result.
Proof.
  unfold backfill. destruct (decide (aliasMap = ∅)) as [-> | _]; [|done].
  induction result as [|dr rest IH]; simpl; [done|].
  now rewrite addAliases_empty, <- IH.
Qed.

(** [DiscoverNodes] is the two passes of the spec, one after the other. *)
Lemma DiscoverNodes_passes (self : RmanDiscoveryPlugin FS) (context : Context_)
    (fs : FS) :
  let input := NdrFsHelpersDiscoverNodes (_searchPaths self)
                 (_allowedExtensions self) (_followSymlinks self) context in
  DiscoverNodes self context fs =
  (map (addAliases (mergedAliasMap input ∅)) (fst (firstPass (_filter self) input fs)),
   self, snd (firstPass (_filter self) input fs)).
Proof.
  intros input. unfold DiscoverNodes. fold input.
  rewrite remove_if_filterPredicate. now rewrite backfill_map.
Qed.

(** The back-fill touches the aliases and nothing else. *)
Lemma addAliases_identifier (aliasMap : gmap string (list string))
    (dr : NdrNodeDiscoveryResult) :
  identifier (addAliases aliasMap dr) = identifier dr.
Proof. unfold addAliases. now destruct (aliasMap !! identifier dr). Qed.

Lemma addAliases_uri (aliasMap : gmap string (list string))
    (dr : NdrNodeDiscoveryResult) :
  uri (addAliases aliasMap dr) = uri dr.
Proof. unfold addAliases. now destruct (aliasMap !! identifier dr). Qed.

Lemma addAliases_lookup (aliasMap : gmap string (list string))
    (dr : NdrNodeDiscoveryResult) (al : list string) :
  aliasMap !! identifier dr = Some al -> addAliases aliasMap dr = set_aliases al dr.
Proof. unfold addAliases. now intros ->. Qed.

(** The filter is given the results in order, one call each. *)
Lemma filterCalls_arguments (filter : Filter FS)
    (results : NdrNodeDiscoveryResultVec) (fs : FS) :
  map fst (fst (filterCalls filter results fs)) = results.
Proof.
  revert fs. induction results as [|dr rest IH]; intros fs; [done|].
  cbn [filterCalls]. destruct (filter dr fs) as [answer fs1].
  specialize (IH fs1). destruct (filterCalls filter rest fs1) as [calls fs2].
  cbn in *. now rewrite IH.
Qed.

(** Every recorded call is a call of the filter, at some state. *)
Lemma filterCalls_answers (filter : Filter FS)
    (results : NdrNodeDiscoveryResultVec) (fs : FS) :
  Forall (fun c => exists fs0, snd c = fst (filter (fst c) fs0))
         (fst (filterCalls filter results fs)).
Proof.
  revert fs. induction results as [|dr rest IH]; intros fs; [constructor|].
  cbn [filterCalls]. destruct (filter dr fs) as [answer fs1] eqn:Hf.
  specialize (IH fs1). destruct (filterCalls filter rest fs1) as [calls fs2].
  cbn in *. constructor; [|exact IH].
  exists fs. cbn. now rewrite Hf.
Qed.

(** A filter that is a predicate keeps what it answers true for. *)
Lemma filterCalls_predicate (p : NdrNodeDiscoveryResult -> bool)
    (results : NdrNodeDiscoveryResultVec) (fs : FS) :
  filterCalls (predicateFilter p) results fs =
  (map (fun dr => (dr, (p dr, dr))) results, fs).
Proof.
  induction results as [|dr rest IH]; [done|].
  cbn [filterCalls]. unfold predicateFilter at 1. rewrite IH. reflexivity.
Qed.

Lemma keptOf_predicate (p : NdrNodeDiscoveryResult -> bool)
    (results : NdrNodeDiscoveryResultVec) :
  keptOf (map (fun dr => (dr, (p dr, dr))) results) = List.filter p results.
Proof.
  unfold keptOf. induction results as [|dr rest IH]; [done|].
  cbn [map List.filter fst snd]. destruct (p dr); cbn [map snd]; now rewrite IH.
Qed.

(** What the first pass leaves stems from the node results. *)
Lemma firstPass_origin (filter : option (Filter FS))
    (results : NdrNodeDiscoveryResultVec) (fs : FS) (k : NdrNodeDiscoveryResult) :
  In k (fst (firstPass filter results fs)) ->
  exists dr, In dr results /\ isAliasesFile dr = false /\
    match filter with
    | Some f => exists fs0, k = snd (fst (f dr fs0))
    | None => k = dr
    end.
Proof.
  unfold firstPass. destruct filter as [f|].
  - pose proof (filterCalls_arguments f (nodeResults results) fs) as Hargs.
    pose proof (filterCalls_answers f (nodeResults results) fs) as Hans.
    destruct (filterCalls f (nodeResults results) fs) as [calls fs1].
    cbn [fst] in *. unfold keptOf. intros Hk.
    apply in_map_iff in Hk as [c [<- Hc]].
    apply filter_In in Hc as [Hc _].
    rewrite Forall_forall in Hans. destruct (Hans c) as [fs0 Hfs0].
    { now apply list_elem_of_In. }
    assert (Hin : In (fst c) (nodeResults results)).
    { rewrite <- Hargs. now apply in_map. }
    apply filter_In in Hin as [Hin Hnode].
    exists (fst c). split; [exact Hin|]. split.
    + now apply negb_true_iff.
    + exists fs0. now rewrite Hfs0.
  - cbn [fst]. intros Hk. apply filter_In in Hk as [Hin Hnode].
    exists k. split; [exact Hin|]. split; [now apply negb_true_iff | reflexivity].
Qed.

(** The alias files that come after a result are merged like the ones
    before it. *)
Lemma mergedAliasMap_app (before after : NdrNodeDiscoveryResultVec)
    (aliasMap : gmap string (list string)) :
  mergedAliasMap (before ++ after) aliasMap =
  mergedAliasMap after (mergedAliasMap before aliasMap).
Proof.
  unfold mergedAliasMap, aliasesFiles.
  now rewrite List.filter_app, fold_left_app.
Qed.

Lemma mergedAliasMap_node (dr : NdrNodeDiscoveryResult)
    (rest : NdrNodeDiscoveryResultVec) (aliasMap : gmap string (list string)) :
  isAliasesFile dr = false ->
  mergedAliasMap (dr :: rest) aliasMap = mergedAliasMap rest aliasMap.
Proof.
  intros Hdr. unfold mergedAliasMap, aliasesFiles. cbn [List.filter].
  now rewrite Hdr.
Qed.

(** ** The alias pass *)

(** C1. The aliases written onto the returned results are those of the map
    merged from every aliases file of the input: the returned collection is
    the outcome of the first pass with the merged map applied to each result;
    so a returned result whose identifier is a key of the merged map carries
    that entry, and a node is returned with the entry that the aliases files
    before it and after it in the input have built. *)
Theorem DiscoverNodes_aliases_of_merged_map
    (self : RmanDiscoveryPlugin FS) (context : Context_) (fs : FS) :
  let input := NdrFsHelpersDiscoverNodes (_searchPaths self)
                 (_allowedExtensions self) (_followSymlinks self) context in
  let returned := fst (fst (DiscoverNodes self context fs)) in
  returned = map (addAliases (mergedAliasMap input ∅))
                 (fst (firstPass (_filter self) input fs))
  /\ (forall r al, In r returned ->
        mergedAliasMap input ∅ !! identifier r = Some al -> aliases r = al)
  /\ (forall before node after al,
        input = before ++ node :: after ->
        isAliasesFile node = false ->
        _filter self = None ->
        mergedAliasMap after (mergedAliasMap before ∅) !! identifier node = Some al ->
        In (set_aliases al node) returned).
Proof.
  intros input returned.
  assert (Hreturned : returned = map (addAliases (mergedAliasMap input ∅))
                                     (fst (firstPass (_filter self) input fs))).
  { unfold returned. now rewrite DiscoverNodes_passes. }
  split; [exact Hreturned|]. split.
  - intros r al Hr Hal. rewrite Hreturned in Hr.
    apply in_map_iff in Hr as [k [<- _]].
    rewrite addAliases_identifier in Hal.
    now rewrite (addAliases_lookup _ _ _ Hal).
  - intros before node after al Hinput Hnode Hfilter Hal.
    rewrite Hreturned, Hfilter. unfold firstPass. cbn [fst].
    assert (Hmerged : mergedAliasMap input ∅ =
                      mergedAliasMap after (mergedAliasMap before ∅)).
    { rewrite Hinput, mergedAliasMap_app. now apply mergedAliasMap_node. }
    rewrite Hmerged, <- (addAliases_lookup _ _ _ Hal).
    apply in_map. unfold nodeResults. apply filter_In. split.
    + rewrite Hinput. apply in_elt.
    + now rewrite Hnode.
Qed.

(** A filter that leaves the uri alone keeps node results node results. *)
Lemma firstPass_uri (filter : option (Filter FS))
    (results : NdrNodeDiscoveryResultVec) (fs : FS) :
  match filter with Some f => leavesUri f | None => True end ->
  Forall (fun k => isAliasesFile k = false) (fst (firstPass filter results fs)).
Proof.
  intros Hleaves. apply List.Forall_forall. intros k Hk.
  destruct (firstPass_origin _ _ _ _ Hk) as [dr [_ [Hnode Hfrom]]].
  destruct filter as [f|].
  - destruct Hfrom as [fs0 ->]. unfold isAliasesFile in *.
    now rewrite Hleaves.
  - now subst k.
Qed.

(** C2, as the code has it. Every result whose uri ends in ".sdraliases" is
    handed to the alias parser, in input order, each call adding to the map
    the calls before it left; every returned result stems from an input
    result whose uri does not end in the extension (so the aliases files are
    removed); and when no filter is configured, or the filter leaves the uri
    of the results it is given as it is, no returned result has a uri ending
    in the extension. *)
Theorem DiscoverNodes_aliases_files_removed
    (self : RmanDiscoveryPlugin FS) (context : Context_) (fs : FS) :
  let input := NdrFsHelpersDiscoverNodes (_searchPaths self)
                 (_allowedExtensions self) (_followSymlinks self) context in
  let returned := fst (fst (DiscoverNodes self context fs)) in
  fst (snd (remove_if (filterPredicate self) input (∅, fs))) =
    fold_left (fun m dr => ParseShaderAliases dr m)
              (List.filter isAliasesFile input) ∅
  /\ (forall r, In r returned ->
        exists dr k, In dr input /\ isAliasesFile dr = false /\
          r = addAliases (mergedAliasMap input ∅) k /\
          match _filter self with
          | Some f => exists fs0, k = snd (fst (f dr fs0))
          | None => k = dr
          end)
  /\ (match _filter self with Some f => leavesUri f | None => True end ->
      Forall (fun r => isAliasesFile r = false) returned).
Proof.
  intros input returned.
  assert (Hreturned : returned = map (addAliases (mergedAliasMap input ∅))
                                     (fst (firstPass (_filter self) input fs))).
  { unfold returned. now rewrite DiscoverNodes_passes. }
  split; [now rewrite remove_if_filterPredicate|]. split.
  - intros r Hr. rewrite Hreturned in Hr.
    apply in_map_iff in Hr as [k [<- Hk]].
    destruct (firstPass_origin _ _ _ _ Hk) as [dr [Hin [Hnode Hfrom]]].
    now exists dr, k.
  - intros Hleaves. rewrite Hreturned.
    pose proof (firstPass_uri _ input fs Hleaves) as Hkept.
    rewrite List.Forall_forall in Hkept. apply List.Forall_forall.
    intros r Hr. apply in_map_iff in Hr as [k [<- Hk]].
    unfold isAliasesFile. rewrite addAliases_uri. now apply Hkept.
Qed.

(** What a filter that leaves the results alone lets through are results of
    the walk themselves. *)
Lemma firstPass_input (filter : option (Filter FS))
    (results : NdrNodeDiscoveryResultVec) (fs : FS) (k : NdrNodeDiscoveryResult) :
  match filter with Some f => leavesResult f | None => True end ->
  In k (fst (firstPass filter results fs)) ->
  In k results /\ isAliasesFile k = false.
Proof.
  intros Hleaves Hk.
  destruct (firstPass_origin _ _ _ _ Hk) as [dr [Hin [Hnode Hfrom]]].
  destruct filter as [f|].
  - destruct Hfrom as [fs0 ->]. now rewrite Hleaves.
  - now subst k.
Qed.

(** C3, as the code has it. With [merged] the map merged from all the
    aliases files of the input and [kept] the node results the filter let
    through, as it left them (what the code's first pass computes), the
    returned collection is [kept] with, result by result, the aliases
    replaced by the entry of [merged] when the identifier is a key (whatever
    they were), and the result as it was when it is not. A result whose
    identifier is not a key (every result when the input has no aliases
    file: the map is then empty) is returned as the first pass left it: when
    no filter is configured, or the filter leaves the results it is given
    as they are, it is a result of the walk itself, with the aliases the
    walk gave it, the default when the walk gives the default. *)
Theorem DiscoverNodes_backfill
    (self : RmanDiscoveryPlugin FS) (context : Context_) (fs : FS) :
  let input := NdrFsHelpersDiscoverNodes (_searchPaths self)
                 (_allowedExtensions self) (_followSymlinks self) context in
  let merged := mergedAliasMap input ∅ in
  let kept := fst (firstPass (_filter self) input fs) in
  let returned := fst (fst (DiscoverNodes self context fs)) in
  (fst (remove_if (filterPredicate self) input (∅, fs)) = kept /\
   fst (snd (remove_if (filterPredicate self) input (∅, fs))) = merged)
  /\ Forall2 (fun k r => match merged !! identifier k with
                         | Some al => r = set_aliases al k
                         | None => r = k
                         end) kept returned
  /\ (forall r al, In r returned ->
        merged !! identifier r = Some al -> aliases r = al)
  /\ (forall r, In r returned -> merged !! identifier r = None -> In r kept)
  /\ (match _filter self with Some f => leavesResult f | None => True end ->
      forall r, In r returned -> merged !! identifier r = None ->
        (In r input /\ isAliasesFile r = false) /\
        (Forall (fun dr => aliases dr = []) input -> aliases r = []))
  /\ (_filter self = None -> returned = map (addAliases merged) (nodeResults input))
  /\ (aliasesFiles input = [] -> merged = ∅ /\ returned = kept)
  /\ (aliasesFiles input = [] -> _filter self = None -> returned = input).
Proof.
  intros input merged kept returned.
  assert (Hreturned : returned = map (addAliases merged) kept).
  { unfold returned, merged, kept. now rewrite DiscoverNodes_passes. }
  assert (Hunchanged : forall r, In r returned ->
            merged !! identifier r = None -> In r kept).
  { intros r Hr Hal. rewrite Hreturned in Hr.
    apply in_map_iff in Hr as [k [<- Hk]].
    rewrite addAliases_identifier in Hal. unfold addAliases. now rewrite Hal. }
  assert (Hnone : aliasesFiles input = [] -> merged = ∅ /\ returned = kept).
  { intros Hfiles. unfold merged, mergedAliasMap. rewrite Hfiles.
    cbn [fold_left]. split; [reflexivity|].
    rewrite Hreturned. unfold merged, mergedAliasMap. rewrite Hfiles.
    cbn [fold_left]. clear. induction kept as [|k rest IH]; [done|].
    cbn [map]. now rewrite addAliases_empty, IH. }
  split.
  { unfold kept, merged. now rewrite remove_if_filterPredicate. }
  split.
  { rewrite Hreturned. clear. induction kept as [|k rest IH]; cbn [map];
      constructor; [|exact IH].
    unfold addAliases. now destruct (merged !! identifier k). }
  split.
  { intros r al Hr Hal. rewrite Hreturned in Hr.
    apply in_map_iff in Hr as [k [<- _]].
    rewrite addAliases_identifier in Hal.
    now rewrite (addAliases_lookup _ _ _ Hal). }
  split; [exact Hunchanged|]. split.
  { intros Hleaves r Hr Hal.
    pose proof (firstPass_input _ input fs r Hleaves (Hunchanged r Hr Hal))
      as [Hin Hnode].
    split; [now split|]. intros Hdefault.
    rewrite List.Forall_forall in Hdefault. now apply Hdefault. }
  split.
  { intros Hfilter. rewrite Hreturned. unfold kept. now rewrite Hfilter. }
  split; [exact Hnone|].
  intros Hfiles Hfilter. destruct (Hnone Hfiles) as [_ ->].
  unfold kept. rewrite Hfilter. unfold firstPass, nodeResults. cbn [fst].
  unfold aliasesFiles in Hfiles. clear -Hfiles.
  induction input as [|dr rest IH]; [done|].
  cbn [List.filter] in *. destruct (isAliasesFile dr); [discriminate|].
  cbn [negb]. now rewrite IH.
Qed.

(** ** The filter *)

(** C4. With a filter configured, the filter is called on the node results
    only (the aliases files have been set apart before it), in order, on the
    records as the walk delivered them (no alias is written yet); the
    returned collection is made of the results it answered true for, as it
    left them, with the aliases then written onto them; and for a filter that
    is a predicate, a result is returned if and only if it is a node result
    the predicate holds of, with its aliases written. *)
Theorem DiscoverNodes_filter
    (self : RmanDiscoveryPlugin FS) (context : Context_) (fs : FS)
    (f : Filter FS) :
  _filter self = Some f ->
  let input := NdrFsHelpersDiscoverNodes (_searchPaths self)
                 (_allowedExtensions self) (_followSymlinks self) context in
  let returned := fst (fst (DiscoverNodes self context fs)) in
  let calls := fst (filterCalls f (nodeResults input) fs) in
  map fst calls = nodeResults input
  /\ returned = map (addAliases (mergedAliasMap input ∅)) (keptOf calls)
  /\ snd (DiscoverNodes self context fs) = snd (filterCalls f (nodeResults input) fs)
  /\ (forall p, f = predicateFilter p ->
      forall r, In r returned <->
        exists dr, In dr input /\ isAliasesFile dr = false /\ p dr = true /\
                   r = addAliases (mergedAliasMap input ∅) dr).
Proof.
  intros Hfilter input returned calls.
  assert (Hreturned : returned =
            map (addAliases (mergedAliasMap input ∅)) (keptOf calls)).
  { unfold returned, calls. rewrite DiscoverNodes_passes. fold input.
    rewrite Hfilter. unfold firstPass.
    now destruct (filterCalls f (nodeResults input) fs). }
  split; [apply filterCalls_arguments|]. split; [exact Hreturned|]. split.
  - rewrite DiscoverNodes_passes. fold input. rewrite Hfilter.
    unfold firstPass. now destruct (filterCalls f (nodeResults input) fs).
  - intros p -> r. rewrite Hreturned. unfold calls.
    rewrite filterCalls_predicate. cbn [fst]. rewrite keptOf_predicate.
    rewrite in_map_iff. split.
    + intros [dr [<- Hdr]]. apply filter_In in Hdr as [Hdr Hp].
      apply filter_In in Hdr as [Hin Hnode]. apply negb_true_iff in Hnode.
      now exists dr.
    + intros [dr [Hin [Hnode [Hp ->]]]]. exists dr. split; [reflexivity|].
      apply filter_In. split; [|exact Hp].
      apply filter_In. split; [exact Hin | now rewrite Hnode].
Qed.

(** A filter that answers true and leaves the results alone keeps them all. *)
Lemma filterCalls_true (f : Filter FS) (results : NdrNodeDiscoveryResultVec)
    (fs : FS) :
  (forall dr fs, fst (fst (f dr fs)) = true) -> leavesResult f ->
  keptOf (fst (filterCalls f results fs)) = results.
Proof.
  intros Htrue Hleaves. revert fs.
  induction results as [|dr rest IH]; intros fs; [done|].
  cbn [filterCalls]. specialize (Htrue dr fs). specialize (Hleaves dr fs).
  destruct (f dr fs) as [[keep dr'] fs1]. cbn [fst snd] in *. subst keep dr'.
  specialize (IH fs1). destruct (filterCalls f rest fs1) as [calls fs2].
  cbn [fst] in *. unfold keptOf in *. cbn [List.filter map fst snd].
  now rewrite IH.
Qed.

(** C5, as the code has it. A filter that answers true for every result and
    leaves the results it is given as they are yields the same ordered
    collection as no filter. *)
Theorem DiscoverNodes_filter_true
    (self : RmanDiscoveryPlugin FS) (context : Context_) (fs : FS)
    (f : Filter FS) :
  _filter self = Some f ->
  (forall dr fs, fst (fst (f dr fs)) = true) ->
  leavesResult f ->
  fst (fst (DiscoverNodes self context fs)) =
  fst (fst (DiscoverNodes (setFilter None self) context fs)).
Proof.
  intros Hfilter Htrue Hleaves. rewrite !DiscoverNodes_passes.
  cbn [fst setFilter _searchPaths _allowedExtensions _followSymlinks _filter].
  rewrite Hfilter. unfold firstPass.
  pose proof (filterCalls_true f
    (nodeResults (NdrFsHelpersDiscoverNodes (_searchPaths self)
       (_allowedExtensions self) (_followSymlinks self) context)) fs
    Htrue Hleaves) as Hkept.
  destruct (filterCalls f _ fs) as [calls fs1]. cbn [fst] in *.
  now rewrite Hkept.
Qed.

(** The calls of a filter whose answers do not depend on its state. *)
Lemma filterCalls_fixed (f : Filter FS) (results : NdrNodeDiscoveryResultVec)
    (fs1 fs2 : FS) :
  fixedFilter f ->
  fst (filterCalls f results fs1) = fst (filterCalls f results fs2).
Proof.
  intros Hfixed. revert fs1 fs2.
  induction results as [|dr rest IH]; intros fs1 fs2; [done|].
  cbn [filterCalls]. specialize (Hfixed dr fs1 fs2).
  destruct (f dr fs1) as [answer1 fs1'], (f dr fs2) as [answer2 fs2'].
  cbn [fst] in Hfixed. subst answer2. specialize (IH fs1' fs2').
  destruct (filterCalls f rest fs1') as [calls1 fs1''],
           (filterCalls f rest fs2') as [calls2 fs2''].
  cbn [fst] in *. now rewrite IH.
Qed.

Lemma DiscoverNodes_fixed (self : RmanDiscoveryPlugin FS) (context : Context_)
    (fs1 fs2 : FS) :
  (forall f, _filter self = Some f -> fixedFilter f) ->
  fst (fst (DiscoverNodes self context fs1)) =
  fst (fst (DiscoverNodes self context fs2)).
Proof.
  intros Hfixed. rewrite !DiscoverNodes_passes. cbn [fst].
  unfold firstPass. destruct (_filter self) as [f|]; [|reflexivity].
  pose proof (filterCalls_fixed f
    (nodeResults (NdrFsHelpersDiscoverNodes (_searchPaths self)
       (_allowedExtensions self) (_followSymlinks self) context)) fs1 fs2
    (Hfixed f eq_refl)) as Hcalls.
  destruct (filterCalls f _ fs1) as [calls1 fs1'],
           (filterCalls f _ fs2) as [calls2 fs2'].
  cbn [fst] in *. now rewrite Hcalls.
Qed.

(** ** Determinism and frame *)

(** C6, as the code has it. With the walk and the alias parser fixed, and
    no filter or a filter whose answers and rewritings do not depend on what
    its earlier calls have left, the configuration determines the results:
    two invocations, on plugins with the same search paths, extensions,
    symlink flag and filter, return identical ordered collections whatever
    the state the filter is in at each; so a second call on the same plugin
    returns what the first returned, and so does every call of any number
    of calls in a row. *)
Theorem DiscoverNodes_deterministic
    (self1 self2 : RmanDiscoveryPlugin FS) (context : Context_) (fs1 fs2 : FS) :
  _searchPaths self1 = _searchPaths self2 ->
  _allowedExtensions self1 = _allowedExtensions self2 ->
  _followSymlinks self1 = _followSymlinks self2 ->
  _filter self1 = _filter self2 ->
  (forall f, _filter self1 = Some f -> fixedFilter f) ->
  fst (fst (DiscoverNodes self1 context fs1)) =
  fst (fst (DiscoverNodes self2 context fs2))
  /\ (let '(result1, self1', fs') := DiscoverNodes self1 context fs1 in
      fst (fst (DiscoverNodes self1' context fs')) = result1)
  /\ (forall n,
        Forall (fun result => result = fst (fst (DiscoverNodes self1 context fs1)))
               (fst (fst (discoveries (repeat context n) self1 fs1)))).
Proof.
  intros Hpaths Hexts Hfollow Hfilter Hfixed.
  assert (Hsame : forall fs fs',
            fst (fst (DiscoverNodes self1 context fs)) =
            fst (fst (DiscoverNodes self1 context fs'))).
  { intros fs fs'. now apply DiscoverNodes_fixed. }
  split; [|split].
  - rewrite (Hsame fs1 fs2). rewrite !DiscoverNodes_passes. cbn [fst].
    now rewrite Hpaths, Hexts, Hfollow, Hfilter.
  - pose proof (Hsame fs1) as Hfirst.
    rewrite (DiscoverNodes_passes self1 context fs1) in *.
    cbn [fst] in *. symmetry. apply Hfirst.
  - intros n. generalize fs1 at 2. induction n as [|n IH]; intros fs.
    + constructor.
    + cbn [repeat discoveries].
      pose proof (Hsame fs fs1) as Hhere.
      rewrite (DiscoverNodes_passes self1 context fs) in *.
      cbn [fst] in Hhere.
      match goal with
      | |- context [discoveries (repeat context n) self1 ?fs'] =>
          specialize (IH fs');
          destruct (discoveries (repeat context n) self1 fs')
            as [[results self'] fs'']
      end.
      cbn [fst] in *. constructor; [exact Hhere | exact IH].
Qed.

Lemma DiscoverNodes_self (self : RmanDiscoveryPlugin FS) (context : Context_)
    (fs : FS) :
  snd (fst (DiscoverNodes self context fs)) = self.
Proof. now rewrite DiscoverNodes_passes. Qed.

Lemma exec_DiscoverNodes_plugins (P : Process FS) (i : nat) (context : Context_) :
  plugins (exec (OpDiscoverNodes i context) P) = plugins P.
Proof.
  cbn [exec]. destruct (plugins P !! i) as [self|] eqn:Hi; [|reflexivity].
  pose proof (DiscoverNodes_self self context (filterState P)) as Hself.
  destruct (DiscoverNodes self context (filterState P)) as [[result self'] fs'].
  cbn [fst snd plugins] in *. subst self'. now apply list_insert_id.
Qed.

(** C7. [DiscoverNodes] leaves the plugin as it found it: search paths,
    allowed extensions, symlink flag and filter; so after any number of
    discovery runs [GetSearchURIs] returns what it returned before, and a
    discovery run of a process changes none of its plugins. *)
Theorem DiscoverNodes_frame
    (self : RmanDiscoveryPlugin FS) (context : Context_) (fs : FS) :
  snd (fst (DiscoverNodes self context fs)) = self
  /\ (forall contexts fs0,
        let '(results, self', _) := discoveries contexts self fs0 in
        self' = self /\ GetSearchURIs self' = GetSearchURIs self /\
        length results = length contexts)
  /\ (forall P i, plugins (exec (OpDiscoverNodes i context) P) = plugins P).
Proof.
  split; [apply DiscoverNodes_self|]. split.
  - intros contexts. induction contexts as [|c rest IH]; intros fs0.
    + now cbn.
    + cbn [discoveries].
      pose proof (DiscoverNodes_self self c fs0) as Hself.
      destruct (DiscoverNodes self c fs0) as [[result self1] fs1].
      cbn [fst snd] in Hself. subst self1. specialize (IH fs1).
      destruct (discoveries rest self fs1) as [[results self2] fs2].
      destruct IH as [-> [_ Hlen]]. cbn [length]. now rewrite Hlen.
  - intros P i. apply exec_DiscoverNodes_plugins.
Qed.

(** ** The process-wide defaults *)

Lemma GetDefaultSearchPaths_initialised (P : Process FS) (paths : NdrStringVec) :
  defaultSearchPaths (statics P) = Some paths ->
  RmanDiscoveryPlugin_GetDefaultSearchPaths P = (paths, P).
Proof. unfold RmanDiscoveryPlugin_GetDefaultSearchPaths. now intros ->. Qed.

Lemma new_statics (P : Process FS) (paths : NdrStringVec) :
  defaultSearchPaths (statics P) = Some paths ->
  RmanDiscoveryPlugin_new P =
  (mkPlugin paths (TfToStringVector _allowedExtensionTokens.allTokens)
            (defaultFollowSymlinks (statics P)) None, P).
Proof.
  intros Hpaths. unfold RmanDiscoveryPlugin_new.
  now rewrite (GetDefaultSearchPaths_initialised _ _ Hpaths).
Qed.

Lemma exec_computedOnce (op : Op Context_ FS) (P : Process FS) :
  computedOnce P -> computedOnce (exec op P).
Proof.
  unfold computedOnce. intros HP.
  destruct op as [paths|b| |f|i c|i|env]; cbn [exec].
  - unfold RmanDiscoveryPlugin_SetDefaultSearchPaths,
      RmanDiscoveryPlugin_GetDefaultSearchPaths.
    destruct (defaultSearchPaths (statics P)); cbn; lia.
  - exact HP.
  - unfold RmanDiscoveryPlugin_new, RmanDiscoveryPlugin_GetDefaultSearchPaths.
    destruct (defaultSearchPaths (statics P)) eqn:E; cbn; rewrite ?E; lia.
  - unfold RmanDiscoveryPlugin_new_filter, RmanDiscoveryPlugin_new,
      RmanDiscoveryPlugin_GetDefaultSearchPaths.
    destruct (defaultSearchPaths (statics P)) eqn:E; cbn; rewrite ?E; lia.
  - destruct (plugins P !! i) as [self|]; [|exact HP].
    now destruct (DiscoverNodes self c (filterState P)) as [[result self'] fs'].
  - exact HP.
  - exact HP.
Qed.

Lemma run_computedOnce (ops : list (Op Context_ FS)) (P : Process FS) :
  computedOnce P -> computedOnce (run ops P).
Proof.
  unfold run. revert P. induction ops as [|op rest IH]; intros P HP; [exact HP|].
  cbn [fold_left]. apply IH. now apply exec_computedOnce.
Qed.

(** The static follows the last setter. *)
Lemma run_lastSearchPaths (ops : list (Op Context_ FS)) (P : Process FS)
    (o : option NdrStringVec) (paths : NdrStringVec) :
  (forall p, o = Some p -> defaultSearchPaths (statics P) = Some p) ->
  fold_left (fun o op =>
               match op with OpSetDefaultSearchPaths paths => Some paths | _ => o end)
            ops o = Some paths ->
  defaultSearchPaths (statics (run ops P)) = Some paths.
Proof.
  unfold run. revert P o.
  induction ops as [|op rest IH]; intros P o Ho Hlast; cbn [fold_left] in *.
  - now apply Ho.
  - eapply IH; [|exact Hlast]. clear IH Hlast. intros p Hp.
    destruct op as [paths'|b| |f|i c|i|env]; cbn [exec].
    + injection Hp as ->.
      unfold RmanDiscoveryPlugin_SetDefaultSearchPaths.
      now destruct (RmanDiscoveryPlugin_GetDefaultSearchPaths P).
    + now apply Ho.
    + rewrite (new_statics _ _ (Ho p Hp)). now apply Ho.
    + unfold RmanDiscoveryPlugin_new_filter.
      rewrite (new_statics _ _ (Ho p Hp)). now apply Ho.
    + destruct (plugins P !! i) as [self|]; [|now apply Ho].
      destruct (DiscoverNodes self c (filterState P)) as [[result self'] fs'].
      now apply Ho.
    + now apply Ho.
    + now apply Ho.
Qed.

Lemma GetDefaultSearchPaths_follow (P : Process FS) :
  defaultFollowSymlinks (statics (snd (RmanDiscoveryPlugin_GetDefaultSearchPaths P))) =
  defaultFollowSymlinks (statics P).
Proof.
  unfold RmanDiscoveryPlugin_GetDefaultSearchPaths.
  now destruct (defaultSearchPaths (statics P)).
Qed.

Lemma run_lastFollowSymlinks (ops : list (Op Context_ FS)) (P : Process FS)
    (o : option bool) (b : bool) :
  (forall b0, o = Some b0 -> defaultFollowSymlinks (statics P) = b0) ->
  fold_left (fun o op =>
               match op with OpSetDefaultFollowSymlinks b => Some b | _ => o end)
            ops o = Some b ->
  defaultFollowSymlinks (statics (run ops P)) = b.
Proof.
  unfold run. revert P o.
  induction ops as [|op rest IH]; intros P o Ho Hlast; cbn [fold_left] in *.
  - now apply Ho.
  - eapply IH; [|exact Hlast]. clear IH Hlast. intros b0 Hb0.
    destruct op as [paths'|b'| |f|i c|i|env]; cbn [exec].
    + unfold RmanDiscoveryPlugin_SetDefaultSearchPaths.
      pose proof (GetDefaultSearchPaths_follow P) as Hfollow.
      destruct (RmanDiscoveryPlugin_GetDefaultSearchPaths P) as [x P1].
      cbn in *. rewrite Hfollow. now apply Ho.
    + now injection Hb0 as ->.
    + unfold RmanDiscoveryPlugin_new, RmanDiscoveryPlugin_GetDefaultFollowSymlinks.
      pose proof (GetDefaultSearchPaths_follow P) as Hfollow.
      destruct (RmanDiscoveryPlugin_GetDefaultSearchPaths P) as [x P1].
      cbn in *. rewrite Hfollow. now apply Ho.
    + unfold RmanDiscoveryPlugin_new_filter, RmanDiscoveryPlugin_new,
        RmanDiscoveryPlugin_GetDefaultFollowSymlinks.
      pose proof (GetDefaultSearchPaths_follow P) as Hfollow.
      destruct (RmanDiscoveryPlugin_GetDefaultSearchPaths P) as [x P1].
      cbn in *. rewrite Hfollow. now apply Ho.
    + destruct (plugins P !! i) as [self|]; [|now apply Ho].
      destruct (DiscoverNodes self c (filterState P)) as [[result self'] fs'].
      now apply Ho.
    + now apply Ho.
    + now apply Ho.
Qed.

Lemma new_follow (P : Process FS) :
  _followSymlinks (fst (RmanDiscoveryPlugin_new P)) =
  defaultFollowSymlinks (statics P).
Proof.
  unfold RmanDiscoveryPlugin_new, RmanDiscoveryPlugin_GetDefaultFollowSymlinks.
  pose proof (GetDefaultSearchPaths_follow P) as Hfollow.
  now destruct (RmanDiscoveryPlugin_GetDefaultSearchPaths P) as [x P1].
Qed.

Lemma new_filter_fields (filter : Filter FS) (P : Process FS) :
  RmanDiscoveryPlugin_new_filter filter P =
  (setFilter (Some filter) (fst (RmanDiscoveryPlugin_new P)),
   snd (RmanDiscoveryPlugin_new P)).
Proof.
  unfold RmanDiscoveryPlugin_new_filter.
  now destruct (RmanDiscoveryPlugin_new P).
Qed.

(** C8. From the start of a process and whatever the host calls,
    [computeDefaultSearchPaths] runs at most once, and it has run exactly
    when the static is initialised; the first access computes the paths from
    the environment, and once initialised, the static is read without a
    look at the environment. A plugin constructed after
    [RmanDiscoveryPlugin_SetDefaultSearchPaths(paths)], whatever other calls
    came between (no later call of that setter), has [paths] as its search
    paths; and likewise [RmanDiscoveryPlugin_SetDefaultFollowSymlinks]. *)
Theorem defaults_computed_once_and_set (ops : list (Op Context_ FS)) (P : Process FS) :
  (forall env fs,
     computations (run ops (startup env fs)) <= 1 /\
     (computations (run ops (startup env fs)) = 1 <->
      is_Some (defaultSearchPaths (statics (run ops (startup env fs))))))
  /\ (forall env fs,
      fst (RmanDiscoveryPlugin_GetDefaultSearchPaths (startup env fs)) =
      computeDefaultSearchPaths env)
  /\ (forall paths, defaultSearchPaths (statics P) = Some paths ->
      RmanDiscoveryPlugin_GetDefaultSearchPaths P = (paths, P))
  /\ (forall paths filter, lastSearchPaths ops = Some paths ->
      GetSearchURIs (fst (RmanDiscoveryPlugin_new (run ops P))) = paths /\
      GetSearchURIs (fst (RmanDiscoveryPlugin_new_filter filter (run ops P))) = paths)
  /\ (forall b filter, lastFollowSymlinks ops = Some b ->
      _followSymlinks (fst (RmanDiscoveryPlugin_new (run ops P))) = b /\
      _followSymlinks (fst (RmanDiscoveryPlugin_new_filter filter (run ops P))) = b).
Proof.
  split; [|split; [reflexivity|split; [|split]]].
  - intros env fs.
    pose proof (run_computedOnce ops (startup env fs) eq_refl) as Honce.
    unfold computedOnce in Honce. rewrite Honce.
    destruct (defaultSearchPaths (statics (run ops (startup env fs)))) as [p|].
    + split; [lia|]. split; [now exists p | reflexivity].
    + split; [lia|]. split; [discriminate | now intros [p Hp]].
  - apply GetDefaultSearchPaths_initialised.
  - intros paths filter Hlast.
    assert (Hstatic : defaultSearchPaths (statics (run ops P)) = Some paths).
    { now apply (run_lastSearchPaths ops P None). }
    rewrite new_filter_fields, (new_statics _ _ Hstatic). now cbn.
  - intros b filter Hlast.
    assert (Hstatic : defaultFollowSymlinks (statics (run ops P)) = b).
    { now apply (run_lastFollowSymlinks ops P None). }
    rewrite new_filter_fields. cbn [fst setFilter _followSymlinks].
    now rewrite new_follow.
Qed.

Lemma new_allowedExtensions (P : Process FS) :
  _allowedExtensions (fst (RmanDiscoveryPlugin_new P)) = ["args"; "oso"; "sdraliases"].
Proof.
  unfold RmanDiscoveryPlugin_new, RmanDiscoveryPlugin_GetDefaultFollowSymlinks.
  now destruct (RmanDiscoveryPlugin_GetDefaultSearchPaths P).
Qed.

Lemma exec_allowedExtensions (op : Op Context_ FS) (P : Process FS) :
  Forall (fun self => _allowedExtensions self = ["args"; "oso"; "sdraliases"])
         (plugins P) ->
  Forall (fun self => _allowedExtensions self = ["args"; "oso"; "sdraliases"])
         (plugins (exec op P)).
Proof.
  intros HP. destruct op as [paths|b| |f|i c|i|env].
  - cbn [exec]. unfold RmanDiscoveryPlugin_SetDefaultSearchPaths,
      RmanDiscoveryPlugin_GetDefaultSearchPaths.
    now destruct (defaultSearchPaths (statics P)).
  - exact HP.
  - cbn [exec]. pose proof (new_allowedExtensions P) as Hnew.
    assert (Hplugins : plugins (snd (RmanDiscoveryPlugin_new P)) = plugins P).
    { unfold RmanDiscoveryPlugin_new, RmanDiscoveryPlugin_GetDefaultSearchPaths.
      now destruct (defaultSearchPaths (statics P)). }
    destruct (RmanDiscoveryPlugin_new P) as [self P1]. cbn [fst snd plugins] in *.
    rewrite Hplugins. apply Forall_app. split; [exact HP|]. now constructor.
  - cbn [exec]. rewrite new_filter_fields.
    pose proof (new_allowedExtensions P) as Hnew.
    assert (Hplugins : plugins (snd (RmanDiscoveryPlugin_new P)) = plugins P).
    { unfold RmanDiscoveryPlugin_new, RmanDiscoveryPlugin_GetDefaultSearchPaths.
      now destruct (defaultSearchPaths (statics P)). }
    destruct (RmanDiscoveryPlugin_new P) as [self P1]. cbn [fst snd plugins] in *.
    rewrite Hplugins. apply Forall_app. split; [exact HP|]. now constructor.
  - now rewrite exec_DiscoverNodes_plugins.
  - exact HP.
  - exact HP.
Qed.

(** C10. Both constructors give a plugin the allowed extensions "args",
    "oso" and "sdraliases", in this order; [DiscoverNodes] keeps them; and in
    a process, whatever the host calls, every plugin has exactly these. *)
Theorem allowedExtensions_invariant (ops : list (Op Context_ FS)) (env : Environment) (fs : FS) :
  (forall P, _allowedExtensions (fst (RmanDiscoveryPlugin_new P)) =
             ["args"; "oso"; "sdraliases"])
  /\ (forall filter P,
        _allowedExtensions (fst (RmanDiscoveryPlugin_new_filter filter P)) =
        ["args"; "oso"; "sdraliases"])
  /\ (forall self context fs0,
        _allowedExtensions (snd (fst (DiscoverNodes self context fs0))) =
        _allowedExtensions self)
  /\ Forall (fun self => _allowedExtensions self = ["args"; "oso"; "sdraliases"])
            (plugins (run ops (startup env fs))).
Proof.
  split; [apply new_allowedExtensions|]. split; [|split].
  - intros filter P. rewrite new_filter_fields. cbn [fst setFilter _allowedExtensions].
    apply new_allowedExtensions.
  - intros self context fs0. now rewrite DiscoverNodes_self.
  - assert (Hrun : forall P,
      Forall (fun self => _allowedExtensions self = ["args"; "oso"; "sdraliases"])
             (plugins P) ->
      Forall (fun self => _allowedExtensions self = ["args"; "oso"; "sdraliases"])
             (plugins (run ops P))).
    { unfold run. induction ops as [|op rest IH]; intros P HP; [exact HP|].
      cbn [fold_left]. apply IH. now apply exec_allowedExtensions. }
    apply Hrun. constructor.
Qed.

(** ** What the discovery pass never does *)

Lemma nodeResults_aliasesFiles_length (results : NdrNodeDiscoveryResultVec) :
  length (nodeResults results) + length (aliasesFiles results) = length results.
Proof.
  unfold nodeResults, aliasesFiles.
  induction results as [|dr rest IH]; [reflexivity|].
  cbn [List.filter]. destruct (isAliasesFile dr); cbn [negb length]; lia.
Qed.

Lemma keptOf_length
    (calls : list (NdrNodeDiscoveryResult * (bool * NdrNodeDiscoveryResult))) :
  length (keptOf calls) <= length calls.
Proof.
  unfold keptOf. rewrite length_map. apply List.filter_length_le.
Qed.

Lemma firstPass_length (filter : option (Filter FS))
    (results : NdrNodeDiscoveryResultVec) (fs : FS) :
  length (fst (firstPass filter results fs)) <= length (nodeResults results).
Proof.
  unfold firstPass. destruct filter as [f|]; [|reflexivity].
  pose proof (filterCalls_arguments f (nodeResults results) fs) as Hargs.
  destruct (filterCalls f (nodeResults results) fs) as [calls fs1].
  cbn [fst] in *. rewrite <- Hargs, length_map. apply keptOf_length.
Qed.

(** X1. [DiscoverNodes] never adds a result: the returned collection and
    the aliases files of the input together are no more than the input; with
    no filter they are exactly the input (only the aliases files go). *)
Theorem DiscoverNodes_length
    (self : RmanDiscoveryPlugin FS) (context : Context_) (fs : FS) :
  let input := NdrFsHelpersDiscoverNodes (_searchPaths self)
                 (_allowedExtensions self) (_followSymlinks self) context in
  let returned := fst (fst (DiscoverNodes self context fs)) in
  length returned + length (aliasesFiles input) <= length input
  /\ (_filter self = None ->
      length returned + length (aliasesFiles input) = length input).
Proof.
  intros input returned. unfold returned. rewrite DiscoverNodes_passes.
  fold input. cbn [fst]. rewrite length_map.
  pose proof (nodeResults_aliasesFiles_length input) as Hlen.
  pose proof (firstPass_length (_filter self) input fs) as Hkept.
  split; [lia|]. intros Hfilter. rewrite Hfilter in *.
  unfold firstPass. cbn [fst]. exact Hlen.
Qed.

Lemma filterCalls_false (f : Filter FS) (results : NdrNodeDiscoveryResultVec)
    (fs : FS) :
  (forall dr fs, fst (fst (f dr fs)) = false) ->
  keptOf (fst (filterCalls f results fs)) = [].
Proof.
  intros Hfalse. revert fs.
  induction results as [|dr rest IH]; intros fs; [reflexivity|].
  cbn [filterCalls]. specialize (Hfalse dr fs).
  destruct (f dr fs) as [[keep dr'] fs1]. cbn [fst] in Hfalse. subst keep.
  specialize (IH fs1). destruct (filterCalls f rest fs1) as [calls fs2].
  cbn [fst] in *. unfold keptOf in *. cbn [List.filter fst snd]. exact IH.
Qed.

(** X2. A filter that answers false for every result empties the
    collection, whatever it does to the results it is given. *)
Theorem DiscoverNodes_filter_false
    (self : RmanDiscoveryPlugin FS) (context : Context_) (fs : FS)
    (f : Filter FS) :
  _filter self = Some f ->
  (forall dr fs, fst (fst (f dr fs)) = false) ->
  fst (fst (DiscoverNodes self context fs)) = [].
Proof.
  intros Hfilter Hfalse. rewrite DiscoverNodes_passes. cbn [fst].
  rewrite Hfilter. unfold firstPass.
  pose proof (filterCalls_false f
    (nodeResults (NdrFsHelpersDiscoverNodes (_searchPaths self)
       (_allowedExtensions self) (_followSymlinks self) context)) fs Hfalse)
    as Hkept.
  destruct (filterCalls f _ fs) as [calls fs1]. cbn [fst] in *.
  now rewrite Hkept.
Qed.

Lemma nodeResults_only_aliases (results : NdrNodeDiscoveryResultVec) :
  Forall (fun dr => isAliasesFile dr = true) results -> nodeResults results = [].
Proof.
  unfold nodeResults. induction 1 as [|dr rest Hdr _ IH]; [reflexivity|].
  cbn [List.filter]. now rewrite Hdr.
Qed.

(** X3. When the walk finds nothing but aliases files (or nothing at all),
    the collection is empty and the filter, if any, is not called: its state
    is as before. *)
Theorem DiscoverNodes_only_aliases_files
    (self : RmanDiscoveryPlugin FS) (context : Context_) (fs : FS) :
  Forall (fun dr => isAliasesFile dr = true)
         (NdrFsHelpersDiscoverNodes (_searchPaths self)
            (_allowedExtensions self) (_followSymlinks self) context) ->
  fst (fst (DiscoverNodes self context fs)) = [] /\
  snd (DiscoverNodes self context fs) = fs.
Proof.
  intros Honly. rewrite DiscoverNodes_passes. cbn [fst snd].
  unfold firstPass. rewrite (nodeResults_only_aliases _ Honly).
  now destruct (_filter self).
Qed.

Lemma mergedAliasMap_nothing (results : NdrNodeDiscoveryResultVec) :
  (forall dr, In dr results -> isAliasesFile dr = true ->
              ParseShaderAliases dr ∅ = ∅) ->
  mergedAliasMap results ∅ = ∅.
Proof.
  unfold mergedAliasMap, aliasesFiles.
  induction results as [|dr rest IH]; intros Hnothing; [reflexivity|].
  cbn [List.filter]. destruct (isAliasesFile dr) eqn:Hdr.
  - cbn [fold_left]. rewrite (Hnothing dr (or_introl eq_refl) Hdr).
    apply IH. intros dr0 Hin. apply Hnothing. now right.
  - apply IH. intros dr0 Hin. apply Hnothing. now right.
Qed.

Lemma map_addAliases_empty (results : NdrNodeDiscoveryResultVec) :
  map (addAliases ∅) results = results.
Proof.
  induction results as [|dr rest IH]; [reflexivity|].
  cbn [map]. now rewrite addAliases_empty, IH.
Qed.

(** X4. Aliases files that contribute no entry (an aliases file that cannot
    be parsed) are removed all the same, and the nodes come back as the walk
    delivered them, in order. *)
Theorem DiscoverNodes_nothing_contributed
    (self : RmanDiscoveryPlugin FS) (context : Context_) (fs : FS) :
  let input := NdrFsHelpersDiscoverNodes (_searchPaths self)
                 (_allowedExtensions self) (_followSymlinks self) context in
  _filter self = None ->
  (forall dr, In dr input -> isAliasesFile dr = true ->
              ParseShaderAliases dr ∅ = ∅) ->
  fst (fst (DiscoverNodes self context fs)) =
  List.filter (fun dr => negb (isAliasesFile dr)) input.
Proof.
  intros input Hfilter Hnothing. rewrite DiscoverNodes_passes. fold input.
  cbn [fst]. rewrite (mergedAliasMap_nothing _ Hnothing), Hfilter.
  unfold firstPass. cbn [fst]. apply map_addAliases_empty.
Qed.

(** X5. Aliases go by identifier, not by source type or file: two returned
    results with the same identifier, a key of the merged map, have the same
    aliases. *)
Theorem DiscoverNodes_aliases_per_identifier
    (self : RmanDiscoveryPlugin FS) (context : Context_) (fs : FS)
    (r1 r2 : NdrNodeDiscoveryResult) :
  let input := NdrFsHelpersDiscoverNodes (_searchPaths self)
                 (_allowedExtensions self) (_followSymlinks self) context in
  let returned := fst (fst (DiscoverNodes self context fs)) in
  In r1 returned -> In r2 returned ->
  identifier r1 = identifier r2 ->
  is_Some (mergedAliasMap input ∅ !! identifier r1) ->
  aliases r1 = aliases r2.
Proof.
  intros input returned Hr1 Hr2 Hid [al Hal].
  unfold returned in *. rewrite DiscoverNodes_passes in *. fold input in Hr1, Hr2.
  cbn [fst] in *.
  apply in_map_iff in Hr1 as [k1 [<- _]]. apply in_map_iff in Hr2 as [k2 [<- _]].
  rewrite !addAliases_identifier in *.
  rewrite (addAliases_lookup _ k1 al Hal).
  rewrite Hid in Hal. now rewrite (addAliases_lookup _ k2 al Hal).
Qed.

Lemma nodeResults_sublist (results : NdrNodeDiscoveryResultVec) :
  sublist (nodeResults results) results.
Proof.
  unfold nodeResults. induction results as [|dr rest IH]; [constructor|].
  cbn [List.filter]. destruct (negb (isAliasesFile dr)); now constructor.
Qed.

Lemma keptOf_sublist (f : Filter FS) (results : NdrNodeDiscoveryResultVec)
    (fs : FS) :
  leavesResult f -> sublist (keptOf (fst (filterCalls f results fs))) results.
Proof.
  intros Hleaves. revert fs.
  induction results as [|dr rest IH]; intros fs; [constructor|].
  cbn [filterCalls]. specialize (Hleaves dr fs).
  destruct (f dr fs) as [[keep dr'] fs1]. cbn [fst snd] in Hleaves. subst dr'.
  specialize (IH fs1). destruct (filterCalls f rest fs1) as [calls fs2].
  cbn [fst] in *. unfold keptOf in *. cbn [List.filter fst snd].
  destruct keep; cbn [map snd]; now constructor.
Qed.

Lemma firstPass_sublist (filter : option (Filter FS))
    (results : NdrNodeDiscoveryResultVec) (fs : FS) :
  match filter with Some f => leavesResult f | None => True end ->
  sublist (fst (firstPass filter results fs)) (nodeResults results).
Proof.
  intros Hleaves. unfold firstPass. destruct filter as [f|]; [|reflexivity].
  pose proof (keptOf_sublist f (nodeResults results) fs Hleaves) as Hkept.
  now destruct (filterCalls f (nodeResults results) fs).
Qed.

Lemma sublist_map {A B : Type} (g : A -> B) (l1 l2 : list A) :
  sublist l1 l2 -> sublist (map g l1) (map g l2).
Proof. induction 1; cbn [map]; now constructor. Qed.

Lemma forgetAliases_addAliases (aliasMap : gmap string (list string))
    (results : NdrNodeDiscoveryResultVec) :
  map forgetAliases (map (addAliases aliasMap) results) = map forgetAliases results.
Proof.
  rewrite List.map_map. apply map_ext. intros dr.
  unfold addAliases. now destruct (aliasMap !! identifier dr).
Qed.

(** X6. With no filter, or a filter that leaves the results it is given as
    they are, discovery keeps the order of the walk, invents no result and
    changes no field but the aliases: aliases apart, the returned collection
    is a subsequence of the input. *)
Theorem DiscoverNodes_sublist
    (self : RmanDiscoveryPlugin FS) (context : Context_) (fs : FS) :
  match _filter self with Some f => leavesResult f | None => True end ->
  sublist (map forgetAliases (fst (fst (DiscoverNodes self context fs))))
          (map forgetAliases
               (NdrFsHelpersDiscoverNodes (_searchPaths self)
                  (_allowedExtensions self) (_followSymlinks self) context)).
Proof.
  intros Hleaves. rewrite DiscoverNodes_passes. cbn [fst].
  rewrite forgetAliases_addAliases. apply sublist_map.
  etransitivity; [now apply firstPass_sublist | apply nodeResults_sublist].
Qed.

(** X7. A filter that leaves the results it is given as they are only takes
    results away: what the plugin returns with it is a subsequence of what
    it returns without a filter. *)
Theorem DiscoverNodes_filter_removes
    (self : RmanDiscoveryPlugin FS) (context : Context_) (fs : FS)
    (f : Filter FS) :
  _filter self = Some f ->
  leavesResult f ->
  sublist (fst (fst (DiscoverNodes self context fs)))
          (fst (fst (DiscoverNodes (setFilter None self) context fs))).
Proof.
  intros Hfilter Hleaves. rewrite !DiscoverNodes_passes.
  cbn [fst setFilter _searchPaths _allowedExtensions _followSymlinks _filter].
  apply sublist_map. rewrite Hfilter.
  apply (firstPass_sublist (Some f)). exact Hleaves.
Qed.

(** ** The defaults and the plugins of a process *)

Lemma GetDefaultSearchPaths_plugins (P : Process FS) :
  plugins (snd (RmanDiscoveryPlugin_GetDefaultSearchPaths P)) = plugins P.
Proof.
  unfold RmanDiscoveryPlugin_GetDefaultSearchPaths.
  now destruct (defaultSearchPaths (statics P)).
Qed.

Lemma new_plugins (P : Process FS) :
  plugins (snd (RmanDiscoveryPlugin_new P)) = plugins P.
Proof.
  unfold RmanDiscoveryPlugin_new, RmanDiscoveryPlugin_GetDefaultFollowSymlinks.
  pose proof (GetDefaultSearchPaths_plugins P) as Hplugins.
  now destruct (RmanDiscoveryPlugin_GetDefaultSearchPaths P).
Qed.

Lemma exec_plugins_prefix (op : Op Context_ FS) (P : Process FS) :
  plugins P `prefix_of` plugins (exec op P).
Proof.
  destruct op as [paths|b| |f|i c|i|env].
  - cbn [exec]. unfold RmanDiscoveryPlugin_SetDefaultSearchPaths.
    pose proof (GetDefaultSearchPaths_plugins P) as Hplugins.
    destruct (RmanDiscoveryPlugin_GetDefaultSearchPaths P) as [x P1].
    cbn [snd plugins] in *. now rewrite Hplugins.
  - reflexivity.
  - cbn [exec]. pose proof (new_plugins P) as Hplugins.
    destruct (RmanDiscoveryPlugin_new P) as [self P1].
    cbn [snd plugins] in *. rewrite Hplugins. now apply prefix_app_r.
  - cbn [exec]. rewrite new_filter_fields. cbn [plugins]. rewrite new_plugins.
    now apply prefix_app_r.
  - now rewrite exec_DiscoverNodes_plugins.
  - reflexivity.
  - reflexivity.
Qed.

(** X8. A plugin takes its configuration when it is constructed and keeps
    it: whatever the host calls afterwards (setters of the defaults, changes
    of the environment, constructions, discovery runs), the plugins that
    exist stay as they are, in place; new ones come after them. *)
Theorem run_plugins_prefix (ops : list (Op Context_ FS)) (P : Process FS) :
  plugins P `prefix_of` plugins (run ops P)
  /\ (forall i self, plugins P !! i = Some self ->
        plugins (run ops P) !! i = Some self /\
        (GetSearchURIs <$> plugins (run ops P) !! i) = Some (GetSearchURIs self)).
Proof.
  assert (Hprefix : plugins P `prefix_of` plugins (run ops P)).
  { unfold run. revert P. induction ops as [|op rest IH]; intros P; [reflexivity|].
    cbn [fold_left]. etransitivity; [apply exec_plugins_prefix | apply IH]. }
  split; [exact Hprefix|]. intros i self Hi.
  assert (Hrun : plugins (run ops P) !! i = Some self).
  { now apply (prefix_lookup_Some (plugins P)). }
  split; [exact Hrun|]. now rewrite Hrun.
Qed.

Lemma lastSearchPaths_set (ops : list (Op Context_ FS)) (paths : NdrStringVec) :
  is_Some (fold_left (fun o op =>
                        match op with
                        | OpSetDefaultSearchPaths paths => Some paths
                        | _ => o
                        end) ops (Some paths)).
Proof.
  revert paths. induction ops as [|op rest IH]; intros paths; [now exists paths|].
  cbn [fold_left]. destruct op; apply IH.
Qed.

Lemma exec_keeps_searchPaths (op : Op Context_ FS) (P : Process FS)
    (paths : NdrStringVec) :
  defaultSearchPaths (statics P) = Some paths ->
  match op with OpSetDefaultSearchPaths _ => False | _ => True end ->
  defaultSearchPaths (statics (exec op P)) = Some paths.
Proof.
  intros Hpaths Hop. destruct op as [paths'|b| |f|i c|i|env]; cbn [exec];
    try exact Hpaths; try contradiction.
  - now rewrite (new_statics _ _ Hpaths).
  - unfold RmanDiscoveryPlugin_new_filter. now rewrite (new_statics _ _ Hpaths).
  - destruct (plugins P !! i) as [self|]; [|exact Hpaths].
    now destruct (DiscoverNodes self c (filterState P)) as [[result self'] fs'].
Qed.

Lemma run_keeps_searchPaths (ops : list (Op Context_ FS)) (P : Process FS)
    (paths : NdrStringVec) :
  defaultSearchPaths (statics P) = Some paths ->
  lastSearchPaths ops = None ->
  defaultSearchPaths (statics (run ops P)) = Some paths.
Proof.
  unfold run, lastSearchPaths. revert P.
  induction ops as [|op rest IH]; intros P Hpaths Hlast; [exact Hpaths|].
  cbn [fold_left] in *.
  destruct op as [paths'|b| |f|i c|i|env];
    try (apply IH; [now apply exec_keeps_searchPaths | exact Hlast]).
  destruct (lastSearchPaths_set rest paths') as [x Hx]. congruence.
Qed.

Lemma new_initialises (P : Process FS) :
  defaultSearchPaths (statics (snd (RmanDiscoveryPlugin_new P))) =
  Some (_searchPaths (fst (RmanDiscoveryPlugin_new P))).
Proof.
  unfold RmanDiscoveryPlugin_new, RmanDiscoveryPlugin_GetDefaultFollowSymlinks,
    RmanDiscoveryPlugin_GetDefaultSearchPaths.
  now destruct (defaultSearchPaths (statics P)) eqn:E.
Qed.

(** X9. Constructing a plugin settles the default search paths: as long as
    the host does not call [RmanDiscoveryPlugin_SetDefaultSearchPaths], every
    plugin constructed later has the search paths of the first, whatever has
    become of the environment meanwhile. *)
Theorem new_same_searchPaths (ops : list (Op Context_ FS)) (P : Process FS)
    (filter : Filter FS) :
  lastSearchPaths ops = None ->
  let first := RmanDiscoveryPlugin_new P in
  GetSearchURIs (fst (RmanDiscoveryPlugin_new (run ops (snd first)))) =
    GetSearchURIs (fst first) /\
  GetSearchURIs (fst (RmanDiscoveryPlugin_new_filter filter (run ops (snd first)))) =
    GetSearchURIs (fst first).
Proof.
  intros Hlast first.
  pose proof (run_keeps_searchPaths ops (snd first) _ (new_initialises P) Hlast)
    as Hstatic.
  rewrite new_filter_fields, (new_statics _ _ Hstatic). now cbn.
Qed.

(** X10. The two setters do not interfere, and of two calls of a setter the
    last counts: setting the search paths and setting the symlink policy
    commute, and a second call of either setter leaves the process as if the
    first had not been made. *)
Theorem setters_compose (P : Process FS) (paths paths' : NdrStringVec)
    (b b' : bool) :
  RmanDiscoveryPlugin_SetDefaultSearchPaths paths
    (RmanDiscoveryPlugin_SetDefaultFollowSymlinks b P) =
  RmanDiscoveryPlugin_SetDefaultFollowSymlinks b
    (RmanDiscoveryPlugin_SetDefaultSearchPaths paths P)
  /\ RmanDiscoveryPlugin_SetDefaultSearchPaths paths'
       (RmanDiscoveryPlugin_SetDefaultSearchPaths paths P) =
     RmanDiscoveryPlugin_SetDefaultSearchPaths paths' P
  /\ RmanDiscoveryPlugin_SetDefaultFollowSymlinks b'
       (RmanDiscoveryPlugin_SetDefaultFollowSymlinks b P) =
     RmanDiscoveryPlugin_SetDefaultFollowSymlinks b' P.
Proof.
  unfold RmanDiscoveryPlugin_SetDefaultSearchPaths,
    RmanDiscoveryPlugin_SetDefaultFollowSymlinks,
    RmanDiscoveryPlugin_GetDefaultFollowSymlinks,
    RmanDiscoveryPlugin_GetDefaultSearchPaths.
  cbn [statics defaultSearchPaths defaultFollowSymlinks environment plugins
       filterState computations].
  destruct (defaultSearchPaths (statics P)); cbn; repeat split; reflexivity.
Qed.

(** X11. The path variables replace the defaults, they do not add to them:
    when RMAN_SHADERPATH and RMAN_RIXPLUGINPATH are both set, the search
    paths are the entries of the first, then the entries of the second under
    "Args", and neither RMANTREE nor the hdPrmanLoader plugin is looked at:
    two environments that agree on the two variables compute the same
    paths. *)
Theorem computeDefaultSearchPaths_overrides (env env' : Environment) :
  Tf.empty (TfGetenv env "RMAN_SHADERPATH") = false ->
  Tf.empty (TfGetenv env "RMAN_RIXPLUGINPATH") = false ->
  TfGetenv env' "RMAN_SHADERPATH" = TfGetenv env "RMAN_SHADERPATH" ->
  TfGetenv env' "RMAN_RIXPLUGINPATH" = TfGetenv env "RMAN_RIXPLUGINPATH" ->
  computeDefaultSearchPaths env =
    TfStringSplit (TfGetenv env "RMAN_SHADERPATH") ARCH_PATH_LIST_SEP ++
    map (fun path => TfStringCatPaths path "Args")
        (TfStringSplit (TfGetenv env "RMAN_RIXPLUGINPATH") ARCH_PATH_LIST_SEP)
  /\ computeDefaultSearchPaths env' = computeDefaultSearchPaths env.
Proof.
  intros Hshader Hrix Hshader' Hrix'. unfold computeDefaultSearchPaths.
  rewrite Hshader', Hrix', Hshader, Hrix. cbn [negb app]. now split.
Qed.

(** X12. With neither path variable set, the search paths are empty exactly
    when nothing else is configured either: RMANTREE is unset and no
    hdPrmanLoader plugin gives a directory. When RMANTREE is set, its
    shader directory comes first and its Args directory last. *)
Theorem computeDefaultSearchPaths_unset (env : Environment) :
  Tf.empty (TfGetenv env "RMAN_SHADERPATH") = true ->
  Tf.empty (TfGetenv env "RMAN_RIXPLUGINPATH") = true ->
  (computeDefaultSearchPaths env = [] <->
   Tf.empty (TfGetenv env "RMANTREE") = true /\
   match hdPrmanLoader env with
   | Some pluginPath => Tf.empty (TfGetPathName pluginPath) = true
   | None => True
   end)
  /\ (Tf.empty (TfGetenv env "RMANTREE") = false ->
      head (computeDefaultSearchPaths env) =
        Some (TfStringCatPaths (TfGetenv env "RMANTREE") "lib/shaders") /\
      last (computeDefaultSearchPaths env) =
        Some (TfStringCatPaths (TfGetenv env "RMANTREE") "lib/plugins/Args")).
Proof.
  intros Hshader Hrix. unfold computeDefaultSearchPaths.
  rewrite Hshader, Hrix. cbn [negb app].
  destruct (Tf.empty (TfGetenv env "RMANTREE")); cbn [negb app];
    destruct (hdPrmanLoader env) as [pluginPath|];
    try destruct (Tf.empty (TfGetPathName pluginPath)); cbn [negb app];
    (split; [split; [intros H; try discriminate H; now split
                    | intros [H1 H2]; try discriminate H1; try discriminate H2;
                      reflexivity]
            | intros H; try discriminate H; now split]).
Qed.

(** X13. Where the aliases files stand among the nodes makes no difference:
    two walks that deliver the same nodes in the same order and the same
    aliases files in the same order, however interleaved, give the same
    collection and the same effects of the filter. *)
Theorem DiscoverNodes_interleaving
    (self : RmanDiscoveryPlugin FS) (context1 context2 : Context_) (fs : FS) :
  let input1 := NdrFsHelpersDiscoverNodes (_searchPaths self)
                  (_allowedExtensions self) (_followSymlinks self) context1 in
  let input2 := NdrFsHelpersDiscoverNodes (_searchPaths self)
                  (_allowedExtensions self) (_followSymlinks self) context2 in
  List.filter (fun dr => negb (isAliasesFile dr)) input1 =
  List.filter (fun dr => negb (isAliasesFile dr)) input2 ->
  List.filter isAliasesFile input1 = List.filter isAliasesFile input2 ->
  DiscoverNodes self context1 fs = DiscoverNodes self context2 fs.
Proof.
  intros input1 input2 Hnodes Hfiles. rewrite !DiscoverNodes_passes.
  fold input1 input2. unfold firstPass, mergedAliasMap, nodeResults, aliasesFiles.
  now rewrite Hnodes, Hfiles.
Qed.

End Discovery.

Arguments DiscoverNodes {Context_ FS} _ _ _ _ _.
Arguments filterPredicate {FS} _ _ _ _.
Arguments filterCalls {FS} _ _ _.
Arguments firstPass {FS} _ _ _.
Arguments startup {FS} _ _.
Arguments predicateFilter {FS} _ _ _.
Arguments leavesResult {FS} _.
Arguments leavesUri {FS} _.
Arguments fixedFilter {FS} _.

(** ** The filter never sees an aliases file *)

Section Recording.

Variable Context_ : Type.
Variable FS : Type.
Variable NdrFsHelpersDiscoverNodes :
  NdrStringVec -> NdrStringVec -> bool -> Context_ -> NdrNodeDiscoveryResultVec.
Variable ParseShaderAliases :
  NdrNodeDiscoveryResult -> gmap string (list string) -> gmap string (list string).

(** The recording filter answers as the filter it wraps, and its log grows
    by the results it is called on. *)
Lemma filterCalls_recording (f : Filter FS) (results : NdrNodeDiscoveryResultVec)
    (fs : FS) (log : list NdrNodeDiscoveryResult) :
  filterCalls (recording f) results (fs, log) =
  (fst (filterCalls f results fs), (snd (filterCalls f results fs), log ++ results)).
Proof.
  revert fs log. induction results as [|dr rest IH]; intros fs log.
  - cbn. now rewrite app_nil_r.
  - cbn [filterCalls]. unfold recording at 1. cbn [fst snd].
    destruct (f dr fs) as [answer fs1]. rewrite IH.
    destruct (filterCalls f rest fs1) as [calls fs2]. cbn [fst snd].
    now rewrite <- app_assoc.
Qed.

(** Two filters that agree on the results they are called on make the same
    calls. *)
Lemma filterCalls_agree (f g : Filter FS) (results : NdrNodeDiscoveryResultVec)
    (fs : FS) :
  (forall dr fs0, In dr results -> g dr fs0 = f dr fs0) ->
  filterCalls g results fs = filterCalls f results fs.
Proof.
  revert fs. induction results as [|dr rest IH]; intros fs Hagree; [done|].
  cbn [filterCalls]. rewrite (Hagree dr fs (or_introl eq_refl)).
  destruct (f dr fs) as [answer fs1]. rewrite IH; [reflexivity|].
  intros dr0 fs0 Hin. apply Hagree. now right.
Qed.

(** C9. Run with a filter that logs the results it is called on, the code
    leaves in the log the node results of the input, in order, and no
    result whose uri ends in ".sdraliases"; the logging changes neither the
    returned collection nor the effects of the filter. What a filter would
    answer for an aliases file is of no consequence: two filters that agree
    on the node results give the same collection and the same effects; and
    the alias map is merged from all the aliases files whatever the filter.
    The aliases files are removed whatever the filter: the returned
    collection is made of what the filter answered true for among the node
    results, as it left them (so there are no more returned results than
    node results, and each stems from a node result); and when the filter
    leaves the uri of the results it is given as it is, no returned result
    has a uri ending in ".sdraliases" and no aliases file of the input is
    among them. *)
Theorem filter_not_called_on_aliases_files
    (self : RmanDiscoveryPlugin FS) (context : Context_) (fs : FS)
    (f : Filter FS) :
  let input := NdrFsHelpersDiscoverNodes (_searchPaths self)
                 (_allowedExtensions self) (_followSymlinks self) context in
  let plain := DiscoverNodes NdrFsHelpersDiscoverNodes ParseShaderAliases
                 (setFilter (Some f) self) context fs in
  let logged := DiscoverNodes NdrFsHelpersDiscoverNodes ParseShaderAliases
                  (setFilter (Some (recording f)) self) context (fs, []) in
  snd (snd logged) = nodeResults input
  /\ Forall (fun dr => isAliasesFile dr = false) (snd (snd logged))
  /\ fst (fst logged) = fst (fst plain)
  /\ fst (snd logged) = snd plain
  /\ (forall g : Filter FS,
        (forall dr fs0, isAliasesFile dr = false -> g dr fs0 = f dr fs0) ->
        fst (fst (DiscoverNodes NdrFsHelpersDiscoverNodes ParseShaderAliases
                    (setFilter (Some g) self) context fs)) = fst (fst plain) /\
        snd (DiscoverNodes NdrFsHelpersDiscoverNodes ParseShaderAliases
               (setFilter (Some g) self) context fs) = snd plain)
  /\ fst (snd (remove_if (filterPredicate ParseShaderAliases (setFilter (Some f) self))
                         input (∅, fs))) =
     mergedAliasMap ParseShaderAliases input ∅
  /\ fst (fst plain) =
     map (addAliases (mergedAliasMap ParseShaderAliases input ∅))
         (keptOf (fst (filterCalls f (nodeResults input) fs)))
  /\ length (fst (fst plain)) + length (aliasesFiles input) <= length input
  /\ (forall r, In r (fst (fst plain)) ->
        exists dr fs0, In dr input /\ isAliasesFile dr = false /\
          r = addAliases (mergedAliasMap ParseShaderAliases input ∅)
                         (snd (fst (f dr fs0))))
  /\ (leavesUri f ->
      Forall (fun r => isAliasesFile r = false) (fst (fst plain)) /\
      forall dr, In dr input -> isAliasesFile dr = true ->
                 ~ In dr (fst (fst plain))).
Proof.
  intros input plain logged.
  assert (Hlogged : logged =
    (map (addAliases (mergedAliasMap ParseShaderAliases input ∅))
         (keptOf (fst (filterCalls f (nodeResults input) fs))),
     setFilter (Some (recording f)) self,
     (snd (filterCalls f (nodeResults input) fs), nodeResults input))).
  { unfold logged. rewrite DiscoverNodes_passes.
    cbn [setFilter _searchPaths _allowedExtensions _followSymlinks _filter].
    fold input. unfold firstPass. rewrite filterCalls_recording.
    reflexivity. }
  assert (Hany : forall g : Filter FS,
    DiscoverNodes NdrFsHelpersDiscoverNodes ParseShaderAliases
      (setFilter (Some g) self) context fs =
    (map (addAliases (mergedAliasMap ParseShaderAliases input ∅))
         (keptOf (fst (filterCalls g (nodeResults input) fs))),
     setFilter (Some g) self,
     snd (filterCalls g (nodeResults input) fs))).
  { intros g. rewrite DiscoverNodes_passes.
    cbn [setFilter _searchPaths _allowedExtensions _followSymlinks _filter].
    fold input. unfold firstPass.
    now destruct (filterCalls g (nodeResults input) fs). }
  assert (Hplain := Hany f). fold plain in Hplain.
  assert (Hkept : keptOf (fst (filterCalls f (nodeResults input) fs)) =
                  fst (firstPass (Some f) input fs)).
  { unfold firstPass. now destruct (filterCalls f (nodeResults input) fs). }
  assert (Hclean : leavesUri f ->
            Forall (fun r => isAliasesFile r = false) (fst (fst plain))).
  { intros Hleaves. rewrite Hplain. cbn [fst]. rewrite Hkept.
    pose proof (firstPass_uri FS (Some f) input fs Hleaves) as Hnodes.
    rewrite List.Forall_forall in Hnodes. apply List.Forall_forall.
    intros r Hr. apply in_map_iff in Hr as [k [<- Hk]].
    unfold isAliasesFile. rewrite addAliases_uri. now apply Hnodes. }
  rewrite Hlogged. cbn [fst snd].
  split; [reflexivity|]. split.
  { apply List.Forall_forall. intros dr Hdr.
    apply filter_In in Hdr as [_ Hdr]. now apply negb_true_iff. }
  split; [now rewrite Hplain|]. split; [now rewrite Hplain|]. split.
  { intros g Hagree. rewrite (Hany g), Hplain. cbn [fst snd].
    rewrite (filterCalls_agree f g); [now split|].
    intros dr fs0 Hdr. apply Hagree.
    apply filter_In in Hdr as [_ Hdr]. now apply negb_true_iff. }
  split; [now rewrite remove_if_filterPredicate|].
  split; [now rewrite Hplain|]. split.
  { rewrite Hplain. cbn [fst]. rewrite length_map, Hkept.
    pose proof (firstPass_length FS (Some f) input fs) as Hlen.
    pose proof (nodeResults_aliasesFiles_length input) as Hall. lia. }
  split.
  { intros r Hr. rewrite Hplain in Hr. cbn [fst] in Hr. rewrite Hkept in Hr.
    apply in_map_iff in Hr as [k [<- Hk]].
    destruct (firstPass_origin FS _ _ _ _ Hk) as [dr [Hin [Hnode [fs0 ->]]]].
    now exists dr, fs0. }
  intros Hleaves. split; [now apply Hclean|].
  intros dr _ Hdr Hin. pose proof (Hclean Hleaves) as Hnodes.
  rewrite List.Forall_forall in Hnodes. specialize (Hnodes dr Hin). congruence.
Qed.

End Recording.

(** ** The code at work on the small installation *)

Module Run.
Import Installation.

(** The alias round-trip: the node "plastic" comes back with the aliases of
    the aliases file, which the walk found after it, and the aliases file
    does not come back. *)
Example alias_round_trip :
  fst (fst (DiscoverNodes walk parse plugin tt 0)) =
  [set_aliases ["old_plastic"; "legacy_plastic"] plastic; glass].
Proof. vm_compute. reflexivity. Qed.

(** With the filter [argsOnly], "glass" (an .oso) is discarded; the filter
    was called twice, not on the aliases file. *)
Example args_only :
  DiscoverNodes walk parse (setFilter (Some argsOnly) plugin) tt 0 =
  ([set_aliases ["old_plastic"; "legacy_plastic"] plastic],
   setFilter (Some argsOnly) plugin, 2).
Proof. vm_compute. reflexivity. Qed.

(** In a process started with RMANTREE set, the first plugin has the two
    paths under RMANTREE. *)
Example default_paths :
  GetSearchURIs _
    (fst (RmanDiscoveryPlugin_new nat ":" split catPaths pathName
            (startup rmantree 0))) =
  ["/opt/rman/lib/shaders"; "/opt/rman/lib/plugins/Args"].
Proof. vm_compute. reflexivity. Qed.

(** C1 at work: "plastic" precedes the aliases file in the input and is
    returned with the aliases the file declares. *)
Lemma DiscoverNodes_aliases_of_merged_map_witness :
  In (set_aliases ["old_plastic"; "legacy_plastic"] plastic)
     (fst (fst (DiscoverNodes walk parse plugin tt 0))).
Proof.
  pose proof (DiscoverNodes_aliases_of_merged_map unit nat walk parse plugin tt 0)
    as H.
  cbv zeta in H. destruct H as [_ [_ H]].
  apply (H [] plastic [glass; shaderAliases]); reflexivity.
Defined.

(** C2 as stated fails: a filter may rewrite the uri of a node it includes,
    and the node is then returned with a uri ending in ".sdraliases". *)
Lemma aliases_uri_returned_counterexample :
  exists r,
    In r (fst (fst (DiscoverNodes walkNodes parse
                      (setFilter (Some moving) plugin) tt 0))) /\
    Tf.TfStringEndsWith (uri r) ".sdraliases" = true.
Proof.
  exists (mkDiscoveryResult "plastic" "" "" "args" "/moved/table.sdraliases" []).
  split; [left|]; vm_compute; reflexivity.
Qed.

(** C2 at work: without a filter, no returned uri ends in ".sdraliases". *)
Lemma DiscoverNodes_aliases_files_removed_witness :
  Forall (fun r => isAliasesFile r = false)
         (fst (fst (DiscoverNodes walk parse plugin tt 0))).
Proof.
  pose proof (DiscoverNodes_aliases_files_removed unit nat walk parse plugin tt 0)
    as H.
  cbv zeta in H. destruct H as [_ [_ H]]. apply H. exact I.
Defined.

(** C3 as stated fails: the input has no aliases file and the walk gave
    every result the default aliases, yet a result, whose identifier is no
    key of the (empty) map, comes back with the aliases the filter wrote. *)
Lemma aliases_default_counterexample :
  aliasesFiles [plastic; glass] = [] /\
  Forall (fun dr => aliases dr = []) [plastic; glass] /\
  exists r,
    In r (fst (fst (DiscoverNodes walkNodes parse
                      (setFilter (Some tagging) plugin) tt 0))) /\
    mergedAliasMap parse [plastic; glass] ∅ !! identifier r = None /\
    aliases r <> [].
Proof.
  split; [reflexivity|]. split; [repeat constructor|].
  exists (set_aliases ["tagged"] plastic).
  split; [left; vm_compute; reflexivity|]. split; [reflexivity | discriminate].
Qed.

(** C3 at work, on the walk with the aliases file: "plastic", a key, comes
    back with the entry of the map; "glass", no key, as the walk gave it. *)
Lemma DiscoverNodes_backfill_witness :
  Forall2 (fun k r =>
             match mergedAliasMap parse [plastic; glass; shaderAliases] ∅
                   !! identifier k with
             | Some al => r = set_aliases al k
             | None => r = k
             end)
          [plastic; glass]
          (fst (fst (DiscoverNodes walk parse plugin tt 0))) /\
  ((In glass [plastic; glass; shaderAliases] /\ isAliasesFile glass = false) /\
   (Forall (fun dr => aliases dr = []) [plastic; glass; shaderAliases] ->
    aliases glass = [])).
Proof.
  pose proof (DiscoverNodes_backfill unit nat walk parse plugin tt 0) as H.
  cbv zeta in H. destruct H as [_ [Hall [_ [_ [Hnokey _]]]]].
  split; [exact Hall|].
  apply (Hnokey I glass); [right; left; reflexivity | reflexivity].
Defined.

(** C4 at work, with the filter [argsOnly]. *)
Lemma DiscoverNodes_filter_witness :
  _filter (setFilter (Some argsOnly) plugin) = Some argsOnly /\
  fst (fst (DiscoverNodes walk parse (setFilter (Some argsOnly) plugin) tt 0)) =
  map (addAliases (mergedAliasMap parse [plastic; glass; shaderAliases] ∅))
      (keptOf (fst (filterCalls argsOnly (nodeResults [plastic; glass; shaderAliases]) 0))).
Proof.
  split; [reflexivity|].
  pose proof (DiscoverNodes_filter unit nat walk parse
                (setFilter (Some argsOnly) plugin) tt 0 argsOnly eq_refl) as H.
  cbv zeta in H. destruct H as [_ [H _]]. exact H.
Defined.

(** C5 as stated fails: [tagging] answers true for every result, and the
    collection it yields is not the one of the plugin without a filter. *)
Lemma filter_true_counterexample :
  (forall dr fs, fst (fst (tagging dr fs)) = true) /\
  fst (fst (DiscoverNodes walkNodes parse (setFilter (Some tagging) plugin) tt 0)) <>
  fst (fst (DiscoverNodes walkNodes parse plugin tt 0)).
Proof.
  split; [reflexivity|]. vm_compute. discriminate.
Qed.

(** C5 at work, with the filter [includeAll]. *)
Lemma DiscoverNodes_filter_true_witness :
  _filter (setFilter (Some includeAll) plugin) = Some includeAll /\
  (forall dr fs, fst (fst (includeAll dr fs)) = true) /\
  leavesResult includeAll /\
  fst (fst (DiscoverNodes walk parse (setFilter (Some includeAll) plugin) tt 0)) =
  fst (fst (DiscoverNodes walk parse
              (setFilter None (setFilter (Some includeAll) plugin)) tt 0)).
Proof.
  split; [reflexivity|]. split; [reflexivity|]. split; [intros dr fs; reflexivity|].
  apply (DiscoverNodes_filter_true unit nat walk parse
           (setFilter (Some includeAll) plugin) tt 0 includeAll);
    [reflexivity | reflexivity | intros dr fs; reflexivity].
Defined.

(** C6 as stated fails: with the configuration and the files fixed, the
    filter [firstOnly] makes the second invocation on the same plugin return
    another collection than the first. *)
Lemma two_invocations_counterexample :
  fst (fst (DiscoverNodes walk parse (setFilter (Some firstOnly) plugin) tt 0)) =
    [set_aliases ["old_plastic"; "legacy_plastic"] plastic] /\
  snd (fst (DiscoverNodes walk parse (setFilter (Some firstOnly) plugin) tt 0)) =
    setFilter (Some firstOnly) plugin /\
  fst (fst (DiscoverNodes walk parse (setFilter (Some firstOnly) plugin) tt
              (snd (DiscoverNodes walk parse
                      (setFilter (Some firstOnly) plugin) tt 0)))) = [].
Proof. vm_compute. repeat split. Qed.

(** C6 at work: [argsOnly] counts its calls and answers the same whatever
    the count; a second run returns what the first returned, and so do
    three runs in a row. *)
Lemma DiscoverNodes_deterministic_witness :
  (let '(result1, self1, fs1) :=
     DiscoverNodes walk parse (setFilter (Some argsOnly) plugin) tt 0 in
   fst (fst (DiscoverNodes walk parse self1 tt fs1)) = result1) /\
  Forall (fun result =>
            result =
            fst (fst (DiscoverNodes walk parse
                        (setFilter (Some argsOnly) plugin) tt 0)))
         (fst (fst (discoveries unit nat walk parse [tt; tt; tt]
                      (setFilter (Some argsOnly) plugin) 0))).
Proof.
  pose proof (DiscoverNodes_deterministic unit nat walk parse
                (setFilter (Some argsOnly) plugin)
                (setFilter (Some argsOnly) plugin) tt 0 7
                eq_refl eq_refl eq_refl eq_refl) as H.
  destruct H as [_ [Hsecond Hrow]].
  { intros f Hf. injection Hf as <-. intros dr fs1 fs2. reflexivity. }
  split; [exact Hsecond | exact (Hrow 3)].
Defined.

(** C8 at work: the plugin constructed at the end of [session] has the
    search paths and the symlink policy the host set, though the environment
    has changed meanwhile. *)
Lemma defaults_computed_once_and_set_witness :
  GetSearchURIs _
    (fst (RmanDiscoveryPlugin_new nat ":" split catPaths pathName
            (run unit nat walk parse ":" split catPaths pathName session
                 (startup rmantree 0)))) = ["/site/shaders"] /\
  _followSymlinks
    (fst (RmanDiscoveryPlugin_new nat ":" split catPaths pathName
            (run unit nat walk parse ":" split catPaths pathName session
                 (startup rmantree 0)))) = false.
Proof.
  pose proof (defaults_computed_once_and_set unit nat walk parse ":" split
                catPaths pathName session (startup rmantree 0)) as H.
  destruct H as [_ [_ [_ [Hpaths Hfollow]]]]. split.
  - apply (Hpaths ["/site/shaders"] includeAll). reflexivity.
  - apply (Hfollow false includeAll). reflexivity.
Defined.

(** C9 at work: [noAliasesFiles] would discard an aliases file and count it;
    it is never called on one, so it gives what [includeAll] gives; and the
    aliases file is not among the results. *)
Lemma filter_not_called_on_aliases_files_witness :
  (fst (fst (DiscoverNodes walk parse (setFilter (Some noAliasesFiles) plugin) tt 0)) =
   fst (fst (DiscoverNodes walk parse (setFilter (Some includeAll) plugin) tt 0)) /\
   snd (DiscoverNodes walk parse (setFilter (Some noAliasesFiles) plugin) tt 0) =
   snd (DiscoverNodes walk parse (setFilter (Some includeAll) plugin) tt 0)) /\
  (Forall (fun r => isAliasesFile r = false)
          (fst (fst (DiscoverNodes walk parse
                       (setFilter (Some includeAll) plugin) tt 0))) /\
   ~ In shaderAliases
        (fst (fst (DiscoverNodes walk parse
                     (setFilter (Some includeAll) plugin) tt 0)))).
Proof.
  pose proof (filter_not_called_on_aliases_files unit nat walk parse plugin tt 0
                includeAll) as H.
  cbv zeta in H.
  destruct H as [_ [_ [_ [_ [Hagree [_ [_ [_ [_ Hremoved]]]]]]]]].
  split.
  - apply (Hagree noAliasesFiles). intros dr fs0 Hdr.
    unfold noAliasesFiles, includeAll. unfold isAliasesFile in Hdr.
    change aliasExtension with ".sdraliases" in Hdr. now rewrite Hdr.
  - destruct Hremoved as [Hclean Habsent]; [intros dr fs0; reflexivity|].
    split; [exact Hclean|].
    apply Habsent; [right; right; left; reflexivity | reflexivity].
Defined.

(** X2 at work, with the filter [discardAll]. *)
Lemma DiscoverNodes_filter_false_witness :
  fst (fst (DiscoverNodes walk parse (setFilter (Some discardAll) plugin) tt 0)) = [].
Proof.
  apply (DiscoverNodes_filter_false unit nat walk parse
           (setFilter (Some discardAll) plugin) tt 0 discardAll);
    [reflexivity | intros dr fs; reflexivity].
Defined.

(** X3 at work: a directory with an aliases file and no node; [argsOnly]
    would count its calls. *)
Lemma DiscoverNodes_only_aliases_files_witness :
  fst (fst (DiscoverNodes walkAliases parse (setFilter (Some argsOnly) plugin) tt 0)) = [] /\
  snd (DiscoverNodes walkAliases parse (setFilter (Some argsOnly) plugin) tt 0) = 0.
Proof.
  apply (DiscoverNodes_only_aliases_files unit nat walkAliases parse
           (setFilter (Some argsOnly) plugin) tt 0).
  repeat constructor.
Defined.

(** X4 at work, with a parser that contributes nothing. *)
Lemma DiscoverNodes_nothing_contributed_witness :
  fst (fst (DiscoverNodes walk parseNothing plugin tt 0)) = [plastic; glass].
Proof.
  apply (DiscoverNodes_nothing_contributed unit nat walk parseNothing plugin tt 0);
    [reflexivity | intros dr _ _; reflexivity].
Defined.

(** X5 at work: "plastic" as .args and as .oso have the same aliases. *)
Lemma DiscoverNodes_aliases_per_identifier_witness :
  aliases (set_aliases ["old_plastic"; "legacy_plastic"] plastic) =
  aliases (set_aliases ["old_plastic"; "legacy_plastic"] plasticOso).
Proof.
  apply (DiscoverNodes_aliases_per_identifier unit nat walkPlastics parse plugin
           tt 0).
  - left. reflexivity.
  - right. left. reflexivity.
  - reflexivity.
  - eexists. vm_compute. reflexivity.
Defined.

(** X6 at work, with the filter [argsOnly]. *)
Lemma DiscoverNodes_sublist_witness :
  sublist
    (map forgetAliases
       (fst (fst (DiscoverNodes walk parse (setFilter (Some argsOnly) plugin) tt 0))))
    (map forgetAliases [plastic; glass; shaderAliases]).
Proof.
  apply (DiscoverNodes_sublist unit nat walk parse
           (setFilter (Some argsOnly) plugin) tt 0).
  intros dr fs. reflexivity.
Defined.

(** X7 at work, with the filter [argsOnly]. *)
Lemma DiscoverNodes_filter_removes_witness :
  sublist
    (fst (fst (DiscoverNodes walk parse (setFilter (Some argsOnly) plugin) tt 0)))
    (fst (fst (DiscoverNodes walk parse
                 (setFilter None (setFilter (Some argsOnly) plugin)) tt 0))).
Proof.
  apply (DiscoverNodes_filter_removes unit nat walk parse
           (setFilter (Some argsOnly) plugin) tt 0 argsOnly);
    [reflexivity | intros dr fs; reflexivity].
Defined.

(** X9 at work: the first plugin is constructed with RMANTREE set; the
    environment is then emptied, and the next plugin has the same paths. *)
Lemma new_same_searchPaths_witness :
  GetSearchURIs _
    (fst (RmanDiscoveryPlugin_new nat ":" split catPaths pathName
            (run unit nat walk parse ":" split catPaths pathName quietSession
               (snd (RmanDiscoveryPlugin_new nat ":" split catPaths pathName
                       (startup rmantree 0)))))) =
  ["/opt/rman/lib/shaders"; "/opt/rman/lib/plugins/Args"].
Proof.
  apply (new_same_searchPaths unit nat walk parse ":" split catPaths pathName
           quietSession (startup rmantree 0) includeAll).
  reflexivity.
Defined.

(** X11 at work: with both variables set, RMANTREE and the plugin count for
    nothing. *)
Lemma computeDefaultSearchPaths_overrides_witness :
  computeDefaultSearchPaths ":" split catPaths pathName sitePaths =
    ["/site/osl"; "/site/plugins/Args"] /\
  computeDefaultSearchPaths ":" split catPaths pathName sitePathsOnly =
  computeDefaultSearchPaths ":" split catPaths pathName sitePaths.
Proof.
  apply (computeDefaultSearchPaths_overrides ":" split catPaths pathName
           sitePaths sitePathsOnly); reflexivity.
Defined.

(** X12 at work: nothing configured, no search path. *)
Lemma computeDefaultSearchPaths_unset_witness :
  computeDefaultSearchPaths ":" split catPaths pathName bare = [].
Proof.
  apply (proj1 (computeDefaultSearchPaths_unset ":" split catPaths pathName
                  bare eq_refl eq_refl)).
  split; [reflexivity | exact I].
Defined.

(** X13 at work: the aliases file first or last, the same collection. *)
Lemma DiscoverNodes_interleaving_witness :
  DiscoverNodes walkEither parse (setFilter (Some argsOnly) plugin) true 0 =
  DiscoverNodes walkEither parse (setFilter (Some argsOnly) plugin) false 0.
Proof.
  apply (DiscoverNodes_interleaving bool nat walkEither parse
           (setFilter (Some argsOnly) plugin) true false 0); reflexivity.
Defined.

End Run.
